(** * Redacted: the detective game's session, judge, progression and store

    A shallow embedding of [app.js]: the string helpers the game relies on,
    the [GameDatabase] persistence layer over [localStorage], the
    [PlayerStats] progression rules, and the session handlers
    ([startCase], [handleSearch], [handleLab], [handleUserMessage],
    [handleAccusation], [getScriptedResponse]) acting on the global [state].

    Conventions.
    - JavaScript strings are modelled as [string] over ASCII characters;
      [toLowerCase] and [trim] are the ASCII restrictions of the JavaScript
      methods.
    - A JavaScript object used as a dictionary is a [gmap] of its own
      properties; a read by key also sees the functions a plain object
      inherits from [Object.prototype] ([Js.inherited]). The accessor
      [__proto__] is outside the model: no key is ["__proto__"].
    - [Date.now()] is an explicit argument [now].
    - An uncaught exception inside an event handler ends the handler and
      keeps the mutations made before it.
    - [state.user] is a profile or [null]. A login that takes an inherited
      function for the user leaves the model: [Game.handleLogin] is [None]
      there. *)

From Stdlib Require Import ZArith Lia List Bool Ascii String.
From stdpp Require Import gmap strings list fin_maps.
Import ListNotations.

Local Open Scope string_scope.
Local Open Scope Z_scope.

(** ** JavaScript string methods *)

Module Js.

Definition is_upper (c : ascii) : bool :=
  let n := nat_of_ascii c in (65 <=? n)%nat && (n <=? 90)%nat.

Definition lower_char (c : ascii) : ascii :=
  if is_upper c then ascii_of_nat (nat_of_ascii c + 32) else c.

(** The white space of [String.prototype.trim] below code point 128:
    tab, line feed, vertical tab, form feed, carriage return, space. *)
Definition is_space (c : ascii) : bool :=
  let n := nat_of_ascii c in
  ((9 <=? n)%nat && (n <=? 13)%nat) || (n =? 32)%nat.

Fixpoint toLowerCase (s : string) : string :=
  match s with
  | EmptyString => EmptyString
  | String c r => String (lower_char c) (toLowerCase r)
  end.

Fixpoint trimStart (s : string) : string :=
  match s with
  | EmptyString => EmptyString
  | String c r => if is_space c then trimStart r else s
  end.

Fixpoint trimEnd (s : string) : string :=
  match s with
  | EmptyString => EmptyString
  | String c r =>
      match trimEnd r with
      | EmptyString => if is_space c then EmptyString else String c EmptyString
      | r' => String c r'
      end
  end.

Definition trim (s : string) : string := trimEnd (trimStart s).

Fixpoint startsWith (s p : string) : bool :=
  match p, s with
  | EmptyString, _ => true
  | String _ _, EmptyString => false
  | String a p', String b s' => Ascii.eqb a b && startsWith s' p'
  end.

(** [text.includes(kw)]: [kw] occurs at some position of [text]. *)
Fixpoint includes (text kw : string) : bool :=
  startsWith text kw ||
  match text with
  | EmptyString => false
  | String _ r => includes r kw
  end.

(** A string is falsy exactly when it is empty. *)
Definition truthy (s : string) : bool :=
  match s with EmptyString => false | String _ _ => true end.

(** [a || b] on strings. *)
Definition or_else (a b : string) : string := if truthy a then a else b.

(** [a || b] on numbers ([0] is falsy). *)
Definition or_elseZ (a b : Z) : Z := if a =? 0 then b else a.

(** [Math.ceil(n / 2)] for an array length [n]. *)
Definition ceil_half (n : nat) : nat := (n / 2 + n mod 2)%nat.

Definition is_underscore (c : ascii) : bool := Ascii.eqb c "_"%char.

(** The class [[a-z0-9_]]. *)
Definition is_id_char (c : ascii) : bool :=
  let n := nat_of_ascii c in
  ((97 <=? n)%nat && (n <=? 122)%nat) ||
  ((48 <=? n)%nat && (n <=? 57)%nat) ||
  is_underscore c.

(** [s.replace(/[^a-z0-9_]/g, '_')]. *)
Fixpoint replace_non_id (s : string) : string :=
  match s with
  | EmptyString => EmptyString
  | String c r => String (if is_id_char c then c else "_"%char) (replace_non_id r)
  end.

(** [s.replace(/_{2,}/g, '_')]: scanning from the left, the match that
    starts at an underscore extends over the whole run of underscores
    and is rewritten to one underscore (a run of length one is not matched
    and is copied, which writes the same single underscore). *)
Fixpoint collapse_underscores (s : string) : string :=
  match s with
  | EmptyString => EmptyString
  | String c r =>
      if is_underscore c then
        String "_"%char
          ((fix skip (t : string) : string :=
              match t with
              | EmptyString => EmptyString
              | String d u =>
                  if is_underscore d then skip u
                  else String d (collapse_underscores u)
              end) r)
      else String c (collapse_underscores r)
  end.

(** The names of the functions every plain object inherits from
    [Object.prototype]: [obj[key]] is such a function, which is truthy, when
    [obj] has no own property [key]. *)
Definition object_prototype : list string :=
  ["constructor"; "toString"; "toLocaleString"; "valueOf"; "hasOwnProperty";
   "isPrototypeOf"; "propertyIsEnumerable"; "__defineGetter__"; "__defineSetter__";
   "__lookupGetter__"; "__lookupSetter__"].

Definition inherited (key : string) : bool :=
  existsb (String.eqb key) object_prototype.

End Js.

(** ** Persistent data: the document kept under [GameDatabase.DB_KEY] *)

Record SolvedCase := {
  sc_caseId : option string;  (* [caseData.id || caseData.caseId], possibly undefined *)
  sc_title : string;
  sc_solvedAt : Z;
  sc_accuracy : Z;
  sc_timeTaken : Z;
  sc_score : Z
}.

Record Preferences := {
  soundEnabled : bool;
  musicEnabled : bool;
  notifications : bool
}.

Record User := {
  u_id : string;
  u_name : string;
  u_xp : Z;
  u_rankIndex : nat;
  u_language : string;
  u_solvedCases : list SolvedCase;
  u_currentCase : option string;
  u_playTime : Z;
  u_achievements : list string;
  u_preferences : Preferences;
  u_createdAt : Z;
  u_lastLogin : Z;
  u_loginCount : option Z;     (* absent until the first login *)
  u_lastUpdated : option Z     (* absent until the first update *)
}.

Record Settings := {
  autoSave : bool;
  backupEnabled : bool;
  lastBackup : option Z
}.

Record Statistics := {
  totalUsers : Z;
  totalCasesSolved : Z;
  totalPlayTime : Z;
  stat_lastUpdated : Z
}.

Record Doc := {
  d_version : Z;
  d_users : gmap string User;
  d_lastUser : option string;
  d_settings : Settings;
  d_statistics : Statistics;
  d_lastUpdated : option Z
}.

(** What the read [db.users[id]] yields, and what [getUser] and [login]
    return: a stored profile, the function [db.users] inherits under that
    name, or nothing ([undefined] for the read, [null] for the result). *)
Inductive Entry :=
| Profile (user : User)
| Builtin (key : string)
| NoEntry.

(** The argument of [addSolvedCase]; an absent property is [None]. *)
Record CaseData := {
  cd_id : option string;
  cd_caseId : option string;
  cd_title : option string;
  cd_accuracy : option Z;
  cd_timeTaken : option Z;
  cd_score : option Z
}.

(** ** GameDatabase on documents

    [localStorage] holds at most one item under [DB_KEY]; [None] is the
    missing item, [Some d] the document its JSON text denotes. Every
    [getDB] parses the text afresh, so the document a function works on is
    its own copy: what it changes reaches the store only through [_save]. *)

Module GameDatabase.

Definition VERSION : Z := 2.

Definition default_settings : Settings :=
  {| autoSave := true; backupEnabled := false; lastBackup := None |}.

Definition default_preferences : Preferences :=
  {| soundEnabled := true; musicEnabled := false; notifications := true |}.

Definition initialData (now : Z) : Doc :=
  {| d_version := VERSION;
     d_users := ∅;
     d_lastUser := None;
     d_settings := default_settings;
     d_statistics :=
       {| totalUsers := 0; totalCasesSolved := 0; totalPlayTime := 0;
          stat_lastUpdated := now |};
     d_lastUpdated := None |}.

(** [_save(data)]: stamps version and time and rewrites the whole item.
    A document is an object, so the guard passes and the result is
    [true]. *)
Definition _save (now : Z) (data : Doc) : option Doc :=
  Some {| d_version := VERSION;
          d_users := d_users data;
          d_lastUser := d_lastUser data;
          d_settings := d_settings data;
          d_statistics := d_statistics data;
          d_lastUpdated := Some now |}.

Definition migrate_user (now : Z) (user : User) : User :=
  {| u_id := u_id user;
     u_name := u_name user;
     u_xp := u_xp user;
     u_rankIndex := u_rankIndex user;
     u_language := u_language user;
     u_solvedCases := u_solvedCases user;
     u_currentCase := None;
     u_playTime := 0;
     u_achievements := [];
     u_preferences := default_preferences;
     u_createdAt := u_createdAt user;
     u_lastLogin := Js.or_elseZ (u_lastLogin user) (Js.or_elseZ (u_createdAt user) now);
     u_loginCount := Some 1;
     u_lastUpdated := u_lastUpdated user |}.

Definition _migrateFromV1 (now : Z) (oldData : Doc) : option Doc :=
  _save now
    {| d_version := VERSION;
       d_users := migrate_user now <$> d_users oldData;
       d_lastUser := d_lastUser oldData;
       d_settings := default_settings;
       d_statistics :=
         {| totalUsers := Z.of_nat (size (d_users oldData));
            totalCasesSolved :=
              map_fold (fun _ user acc => acc + Z.of_nat (length (u_solvedCases user)))
                       0 (d_users oldData);
            totalPlayTime := 0;
            stat_lastUpdated := now |};
       d_lastUpdated := None |}.

Definition init (now : Z) (ls : option Doc) : option Doc :=
  match ls with
  | None => _save now (initialData now)
  | Some data =>
      if d_version data =? VERSION then ls else _migrateFromV1 now data
  end.

(** [getDB()]: the parsed item; when the item is missing, [init] writes a
    fresh document and the recursive call returns it. *)
Definition getDB (now : Z) (ls : option Doc) : Doc * option Doc :=
  match ls with
  | Some data => (data, ls)
  | None =>
      match init now ls with
      | Some data => (data, Some data)
      | None => (initialData now, None)
      end
  end.

Definition _generateUserId (name : string) : string :=
  Js.collapse_underscores
    (Js.replace_non_id (Js.trim (Js.toLowerCase name))).

(** [db.users[id]]: an own property shadows the inherited member. *)
Definition users_at (db : Doc) (id : string) : Entry :=
  match d_users db !! id with
  | Some user => Profile user
  | None => if Js.inherited id then Builtin id else NoEntry
  end.

(** [createUser(name)] with the default [initialData = {}]. [None] is the
    [null] returned from the [catch]. The guard [if (db.users[id])] also
    holds for an inherited function. *)
Definition createUser (now : Z) (name : string) (ls : option Doc)
  : option User * option Doc :=
  let '(db, ls1) := getDB now ls in
  let id := _generateUserId name in
  match users_at db id with
  | Profile _ | Builtin _ => (None, ls1)       (* 'User already exists' *)
  | NoEntry =>
      let user :=
        {| u_id := id;
           u_name := Js.trim name;
           u_xp := 0;
           u_rankIndex := 0%nat;
           u_language := "en";
           u_solvedCases := [];
           u_currentCase := None;
           u_playTime := 0;
           u_achievements := [];
           u_preferences := default_preferences;
           u_createdAt := now;
           u_lastLogin := now;
           u_loginCount := None;
           u_lastUpdated := None |} in
      let users := <[id := user]> (d_users db) in
      let db' :=
        {| d_version := d_version db;
           d_users := users;
           d_lastUser := d_lastUser db;
           d_settings := d_settings db;
           d_statistics :=
             {| totalUsers := Z.of_nat (size users);
                totalCasesSolved := totalCasesSolved (d_statistics db);
                totalPlayTime := totalPlayTime (d_statistics db);
                stat_lastUpdated := stat_lastUpdated (d_statistics db) |};
           d_lastUpdated := d_lastUpdated db |} in
      (Some user, _save now db')
  end.

(** [getUser(userId)]: [db.users[userId] || null]. *)
Definition getUser (now : Z) (userId : string) (ls : option Doc)
  : Entry * option Doc :=
  let '(db, ls1) := getDB now ls in (users_at db userId, ls1).

(** [Object.assign(user, safeUpdates)] where [updates] is a whole profile
    object, as at every call site: each property of [updates] but [id]
    and [createdAt] overwrites the stored one; a property [updates] lacks
    keeps its stored value. *)
Definition assign_safe (now : Z) (user updates : User) : User :=
  {| u_id := u_id user;
     u_name := u_name updates;
     u_xp := u_xp updates;
     u_rankIndex := u_rankIndex updates;
     u_language := u_language updates;
     u_solvedCases := u_solvedCases updates;
     u_currentCase := u_currentCase updates;
     u_playTime := u_playTime updates;
     u_achievements := u_achievements updates;
     u_preferences := u_preferences updates;
     u_createdAt := u_createdAt user;
     u_lastLogin := u_lastLogin updates;
     u_loginCount :=
       match u_loginCount updates with
       | Some n => Some n
       | None => u_loginCount user
       end;
     u_lastUpdated := Some now |}.

Definition set_users (users : gmap string User) (db : Doc) : Doc :=
  {| d_version := d_version db;
     d_users := users;
     d_lastUser := d_lastUser db;
     d_settings := d_settings db;
     d_statistics := d_statistics db;
     d_lastUpdated := d_lastUpdated db |}.

Definition set_lastUser (l : option string) (db : Doc) : Doc :=
  {| d_version := d_version db;
     d_users := d_users db;
     d_lastUser := l;
     d_settings := d_settings db;
     d_statistics := d_statistics db;
     d_lastUpdated := d_lastUpdated db |}.

Definition updateUser (now : Z) (userId : string) (updates : User)
    (ls : option Doc) : option User * option Doc :=
  let '(db, ls1) := getDB now ls in
  match users_at db userId with
  | NoEntry => (None, ls1)                     (* 'User not found' *)
  | Builtin _ => (None, ls1)   (* [Object.assign] throws at the read-only [name] of a function *)
  | Profile user =>
      let user' := assign_safe now user updates in
      (Some user', _save now (set_users (<[userId := user']> (d_users db)) db))
  end.

Definition bump_login (now : Z) (user : User) : User :=
  {| u_id := u_id user;
     u_name := u_name user;
     u_xp := u_xp user;
     u_rankIndex := u_rankIndex user;
     u_language := u_language user;
     u_solvedCases := u_solvedCases user;
     u_currentCase := u_currentCase user;
     u_playTime := u_playTime user;
     u_achievements := u_achievements user;
     u_preferences := u_preferences user;
     u_createdAt := u_createdAt user;
     u_lastLogin := now;
     u_loginCount :=
       Some (match u_loginCount user with Some n => Js.or_elseZ n 0 | None => 0 end + 1);
     u_lastUpdated := u_lastUpdated user |}.

(** [login(name)]. [db] is the copy parsed on entry. A profile found in
    it is a property of [db], so the bumped counters are saved with it. A
    profile made by [createUser] lives in the copy [createUser] parsed and
    saved; the [_save(db)] that follows writes the entry copy, into which
    only [lastUser] was set. An inherited function found under the id is
    taken for the user: the two counters are set on the function itself,
    which is no part of [db], and it is returned. *)
Definition login (now : Z) (name : string) (ls : option Doc)
  : Entry * option Doc :=
  let '(db, ls1) := getDB now ls in
  let id := _generateUserId name in
  match users_at db id with
  | Profile user =>
      let user' := bump_login now user in
      (Profile user',
       _save now (set_lastUser (Some id) (set_users (<[id := user']> (d_users db)) db)))
  | Builtin key => (Builtin key, _save now (set_lastUser (Some id) db))
  | NoEntry =>
      match createUser now name ls1 with
      | (None, ls2) => (NoEntry, ls2)          (* 'Failed to create user during login' *)
      | (Some user, _) =>
          (Profile (bump_login now user), _save now (set_lastUser (Some id) db))
      end
  end.

Definition push_solved (sc : SolvedCase) (user : User) : User :=
  {| u_id := u_id user;
     u_name := u_name user;
     u_xp := u_xp user;
     u_rankIndex := u_rankIndex user;
     u_language := u_language user;
     u_solvedCases := u_solvedCases user ++ [sc];
     u_currentCase := u_currentCase user;
     u_playTime := u_playTime user;
     u_achievements := u_achievements user;
     u_preferences := u_preferences user;
     u_createdAt := u_createdAt user;
     u_lastLogin := u_lastLogin user;
     u_loginCount := u_loginCount user;
     u_lastUpdated := u_lastUpdated user |}.

Definition solvedCase_of (now : Z) (caseData : CaseData) : SolvedCase :=
  {| sc_caseId :=
       match cd_id caseData with
       | Some i => if Js.truthy i then Some i else cd_caseId caseData
       | None => cd_caseId caseData
       end;
     sc_title := Js.or_else (default "" (cd_title caseData)) "Unknown Case";
     sc_solvedAt := now;
     sc_accuracy := Js.or_elseZ (default 0 (cd_accuracy caseData)) 100;
     sc_timeTaken := Js.or_elseZ (default 0 (cd_timeTaken caseData)) 0;
     sc_score := Js.or_elseZ (default 0 (cd_score caseData)) 0 |}.

(** [db.statistics.totalCasesSolved++]. *)
Definition count_solved (db : Doc) : Doc :=
  {| d_version := d_version db;
     d_users := d_users db;
     d_lastUser := d_lastUser db;
     d_settings := d_settings db;
     d_statistics :=
       {| totalUsers := totalUsers (d_statistics db);
          totalCasesSolved := totalCasesSolved (d_statistics db) + 1;
          totalPlayTime := totalPlayTime (d_statistics db);
          stat_lastUpdated := stat_lastUpdated (d_statistics db) |};
     d_lastUpdated := d_lastUpdated db |}.

(** [addSolvedCase(userId, caseData)]. The counter is incremented on the
    copy [db] parsed in the middle of the function; nothing saves that
    copy, and [updateUser] parses the item again. The result is [None]
    for [false] or [null], the updated profile otherwise. *)
Definition addSolvedCase (now : Z) (userId : string) (caseData : CaseData)
    (ls : option Doc) : option User * option Doc :=
  match getUser now userId ls with
  | (NoEntry, ls1) => (None, ls1)
  | (Builtin _, ls1) => (None, ls1)            (* [user.solvedCases] is undefined: [push] throws *)
  | (Profile user, ls1) =>
      let user' := push_solved (solvedCase_of now caseData) user in
      let '(db, ls2) := getDB now ls1 in
      let db := count_solved db in               (* [db] is not used again *)
      updateUser now userId user' ls2
  end.

(** [deleteUser(userId)]: [true] without a write when [db.users[userId]]
    is undefined; otherwise the own property, if there is one, is removed,
    the user count recomputed, [lastUser] cleared if it named this user, and
    the document saved. *)
Definition deleteUser (now : Z) (userId : string) (ls : option Doc)
  : bool * option Doc :=
  let '(db, ls1) := getDB now ls in
  match users_at db userId with
  | NoEntry => (true, ls1)                     (* already deleted *)
  | Profile _ | Builtin _ =>
      let users := delete userId (d_users db) in
      (true,
       _save now
         {| d_version := d_version db;
            d_users := users;
            d_lastUser :=
              match d_lastUser db with
              | Some l => if String.eqb l userId then None else Some l
              | None => None
              end;
            d_settings := d_settings db;
            d_statistics :=
              {| totalUsers := Z.of_nat (size users);
                 totalCasesSolved := totalCasesSolved (d_statistics db);
                 totalPlayTime := totalPlayTime (d_statistics db);
                 stat_lastUpdated := stat_lastUpdated (d_statistics db) |};
            d_lastUpdated := d_lastUpdated db |})
  end.

(** [getLastUser()]: [db.lastUser ? this.getUser(db.lastUser) : null]. *)
Definition getLastUser (now : Z) (ls : option Doc) : Entry * option Doc :=
  let '(db, ls1) := getDB now ls in
  match d_lastUser db with
  | Some l => if Js.truthy l then getUser now l ls1 else (NoEntry, ls1)
  | None => (NoEntry, ls1)
  end.


End GameDatabase.

(** ** GameDatabase on raw JSON

    [importData] hands whatever [JSON.parse] returns to [_save], so on this
    path [_save] acts on arbitrary JSON values, and the item in
    [localStorage] is whatever was written. *)

#[warning="-register-all"]
Inductive json :=
| JNull
| JBool (b : bool)
| JNum (n : Z)
| JStr (s : string)
| JArr (items : list json)
| JObj (props : gmap string json).

Module GameDatabaseJson.

(** [data && typeof data === 'object'] (equivalently the guard of
    [_save]): objects and arrays pass; [null] and the primitives do not. *)
Definition is_object (data : json) : bool :=
  match data with
  | JArr _ | JObj _ => true
  | _ => false
  end.

(** [_save(data)]. On a plain object the two assignments add or overwrite
    the properties; on an array they set non-index properties, which
    [JSON.stringify] leaves out. The result pairs the returned boolean
    with the item afterwards. *)
Definition _save (now : Z) (data : json) (item : option json) : bool * option json :=
  match data with
  | JObj props =>
      (true, Some (JObj (<["lastUpdated" := JNum now]>
                           (<["version" := JNum GameDatabase.VERSION]> props))))
  | JArr items => (true, Some (JArr items))
  | _ => (false, item)                         (* 'Invalid data structure' *)
  end.

(** [importData(jsonData)], with [parsed] the outcome of
    [JSON.parse(jsonData)]: [None] when it throws. *)
Definition importData (now : Z) (parsed : option json) (item : option json)
  : bool * option json :=
  match parsed with
  | None => (false, item)
  | Some data =>
      if is_object data then _save now data item
      else (false, item)                       (* 'Invalid data format' *)
  end.

Definition is_number (v : option json) : bool :=
  match v with Some (JNum _) => true | _ => false end.

Definition is_plain_object (v : option json) : bool :=
  match v with Some (JObj _) => true | _ => false end.

Definition is_id_or_null (v : option json) : bool :=
  match v with Some (JStr _) | Some JNull => true | _ => false end.

(** The persistence shape
    [{version: int, users: {...}, lastUser: id|null, settings: {...},
      statistics: {...}}]. *)
Definition valid_document (data : json) : bool :=
  match data with
  | JObj props =>
      is_number (props !! "version") &&
      is_plain_object (props !! "users") &&
      is_id_or_null (props !! "lastUser") &&
      is_plain_object (props !! "settings") &&
      is_plain_object (props !! "statistics")
  | _ => false
  end.

(** The JSON text of a document, as [JSON.stringify] writes it (up to the
    order of the properties, which a [gmap] does not keep). An optional
    property that is absent is left out. *)
Definition optional (key : string) (v : option json) : list (string * json) :=
  match v with
  | Some j => [(key, j)]
  | None => []
  end.

Definition json_of_solved (sc : SolvedCase) : json :=
  JObj (list_to_map
          (optional "caseId" (JStr <$> sc_caseId sc) ++
           [("title", JStr (sc_title sc)); ("solvedAt", JNum (sc_solvedAt sc));
            ("accuracy", JNum (sc_accuracy sc)); ("timeTaken", JNum (sc_timeTaken sc));
            ("score", JNum (sc_score sc))])).

Definition json_of_user (u : User) : json :=
  JObj (list_to_map
          ([("id", JStr (u_id u)); ("name", JStr (u_name u)); ("xp", JNum (u_xp u));
            ("rankIndex", JNum (Z.of_nat (u_rankIndex u)));
            ("language", JStr (u_language u));
            ("solvedCases", JArr (json_of_solved <$> u_solvedCases u));
            ("currentCase", from_option JStr JNull (u_currentCase u));
            ("playTime", JNum (u_playTime u));
            ("achievements", JArr (JStr <$> u_achievements u));
            ("preferences",
             JObj (list_to_map
                     [("soundEnabled", JBool (soundEnabled (u_preferences u)));
                      ("musicEnabled", JBool (musicEnabled (u_preferences u)));
                      ("notifications", JBool (notifications (u_preferences u)))]));
            ("createdAt", JNum (u_createdAt u)); ("lastLogin", JNum (u_lastLogin u))]
           ++ optional "loginCount" (JNum <$> u_loginCount u)
           ++ optional "lastUpdated" (JNum <$> u_lastUpdated u))).

Definition json_of_doc (d : Doc) : json :=
  JObj (list_to_map
          ([("version", JNum (d_version d));
            ("users", JObj (json_of_user <$> d_users d));
            ("lastUser", from_option JStr JNull (d_lastUser d));
            ("settings",
             JObj (list_to_map
                     [("autoSave", JBool (autoSave (d_settings d)));
                      ("backupEnabled", JBool (backupEnabled (d_settings d)));
                      ("lastBackup", from_option JNum JNull (lastBackup (d_settings d)))]));
            ("statistics",
             JObj (list_to_map
                     [("totalUsers", JNum (totalUsers (d_statistics d)));
                      ("totalCasesSolved", JNum (totalCasesSolved (d_statistics d)));
                      ("totalPlayTime", JNum (totalPlayTime (d_statistics d)));
                      ("lastUpdated", JNum (stat_lastUpdated (d_statistics d)))]))]
           ++ optional "lastUpdated" (JNum <$> d_lastUpdated d))).

(** [exportData()]: the text [JSON.stringify(db, null, 2)] of the document
    [getDB] returns, as the JSON value it denotes. *)
Definition exportData (now : Z) (ls : option Doc) : json * option Doc :=
  let '(db, ls1) := GameDatabase.getDB now ls in (json_of_doc db, ls1).

End GameDatabaseJson.

(** ** Progression *)

Record Rank := { threshold : Z; title : string }.

(** The titles are given without their pictograph prefix. *)
Definition RANKS : list Rank :=
  [ {| threshold := 0; title := "Rookie" |};
    {| threshold := 100; title := "Constable" |};
    {| threshold := 300; title := "Detective" |};
    {| threshold := 600; title := "Inspector" |};
    {| threshold := 1000; title := "Chief" |};
    {| threshold := 2000; title := "Legend" |} ].

(** ** Cases *)

Record Suspect := {
  s_id : string;
  s_name : string;
  s_persona : string;
  s_alibi : option string;          (* [None]: the property is absent *)
  s_motive : option string;
  s_relationship : option string;
  s_evidence : option string;
  s_generic : option (list string)
}.

Record Evidence := {
  e_initial : list string;
  e_bodySearch : list string;
  e_roomSearch : list string;
  e_labClue : string;
  e_smokingGun : string
}.

(** The fields only shown to the player (theme, narrative, summary, victim,
    cause, location, time, motive text, solution, image) are left out. *)
Record Case := {
  c_id : string;
  c_title : string;
  c_suspects : list Suspect;
  c_evidence : Evidence;
  c_killerId : string;
  c_motiveKeywords : list string
}.

(** ** The session: the global [state] and what surrounds it *)

Inductive NoteKind := evidence_note | interrogation_note | system_note.

(** The label a search writes into its notes ("Body Search", "Room Search"
    or their translations; empty for any other search type). *)
Inductive SearchLabel := BodySearchLabel | RoomSearchLabel | NoSearchLabel.

(** What a note or chat entry says. The wording shown depends on
    [state.language]; the log keeps which message it is. *)
Inductive Text :=
| TCaseOpened (title : string) (points : Z)
| TGameOver
| TInterrogationStarted (name : string)
| TQuestion (question : string)
| TLine (line : option string)   (* [None]: [undefined] *)
| TNoNewEvidence
| TEvidenceLogged (label : SearchLabel) (item : string)
| TAnalyzing
| TLabReport
| TCaseSolved
| TCaseFailed
| TWelcome (name : string).

Record Note := {
  n_type : NoteKind;
  n_text : Text;
  n_speaker : option string
}.

Record State := {
  currentCase : option Case;
  actionPoints : Z;
  selectedSuspectId : option string;
  chatHistory : list Text;           (* entries pushed by [addMessage], author "system" *)
  evidenceFound : list string;
  investigationNotes : list Note;
  labReady : bool;
  labProcessing : bool;
  responseIndex : gmap string nat;
  activeCases : list Case;
  user : option User;
  language : string;
  apiKey : option string
}.

(** A question whose reply has not arrived yet. *)
Record PendingReply := {
  p_suspect : option Suspect;        (* the result of [suspects.find] *)
  p_text : string;
  p_viaOracle : bool                 (* [state.apiKey] was set when it was sent *)
}.

(** How a call to the generative oracle ends. *)
Inductive OracleOutcome :=
| OracleReply (text : string)
| OracleApiError                     (* [data.error] is set *)
| OracleFailure.                     (* the request or the unpacking throws *)

(** The page: [state], the stored item, the lab callbacks and replies still
    to come, and the rank-up modals appended to the document. *)
Record World := {
  w_state : State;
  w_localStorage : option Doc;
  w_labTimers : nat;
  w_pending : list PendingReply;
  w_rankUpModals : list nat
}.

(** The page with another [state]. *)
Definition with_state (st : State) (w : World) : World :=
  {| w_state := st; w_localStorage := w_localStorage w; w_labTimers := w_labTimers w;
     w_pending := w_pending w; w_rankUpModals := w_rankUpModals w |}.

(** The outcome of one accusation. *)
Record Verdict := {
  isCorrectSuspect : bool;
  keywordHits : nat;
  requiredHits : nat;
  isCorrectMotive : bool
}.

Inductive AccusationOutcome :=
| InputRejected                      (* "Select a suspect and describe the motive." *)
| Threw                              (* no current case, or the killer is not a suspect *)
| Resolved (v : Verdict).

Module Session.

(** *** Assignments to the properties of [state] *)

Definition set_currentCase (v : option Case) (st : State) : State :=
  {| currentCase := v; actionPoints := actionPoints st;
     selectedSuspectId := selectedSuspectId st; chatHistory := chatHistory st;
     evidenceFound := evidenceFound st; investigationNotes := investigationNotes st;
     labReady := labReady st; labProcessing := labProcessing st;
     responseIndex := responseIndex st; activeCases := activeCases st;
     user := user st; language := language st; apiKey := apiKey st |}.

Definition set_actionPoints (v : Z) (st : State) : State :=
  {| currentCase := currentCase st; actionPoints := v;
     selectedSuspectId := selectedSuspectId st; chatHistory := chatHistory st;
     evidenceFound := evidenceFound st; investigationNotes := investigationNotes st;
     labReady := labReady st; labProcessing := labProcessing st;
     responseIndex := responseIndex st; activeCases := activeCases st;
     user := user st; language := language st; apiKey := apiKey st |}.

Definition set_selectedSuspectId (v : option string) (st : State) : State :=
  {| currentCase := currentCase st; actionPoints := actionPoints st;
     selectedSuspectId := v; chatHistory := chatHistory st;
     evidenceFound := evidenceFound st; investigationNotes := investigationNotes st;
     labReady := labReady st; labProcessing := labProcessing st;
     responseIndex := responseIndex st; activeCases := activeCases st;
     user := user st; language := language st; apiKey := apiKey st |}.

Definition set_chatHistory (v : list Text) (st : State) : State :=
  {| currentCase := currentCase st; actionPoints := actionPoints st;
     selectedSuspectId := selectedSuspectId st; chatHistory := v;
     evidenceFound := evidenceFound st; investigationNotes := investigationNotes st;
     labReady := labReady st; labProcessing := labProcessing st;
     responseIndex := responseIndex st; activeCases := activeCases st;
     user := user st; language := language st; apiKey := apiKey st |}.

Definition set_evidenceFound (v : list string) (st : State) : State :=
  {| currentCase := currentCase st; actionPoints := actionPoints st;
     selectedSuspectId := selectedSuspectId st; chatHistory := chatHistory st;
     evidenceFound := v; investigationNotes := investigationNotes st;
     labReady := labReady st; labProcessing := labProcessing st;
     responseIndex := responseIndex st; activeCases := activeCases st;
     user := user st; language := language st; apiKey := apiKey st |}.

Definition set_investigationNotes (v : list Note) (st : State) : State :=
  {| currentCase := currentCase st; actionPoints := actionPoints st;
     selectedSuspectId := selectedSuspectId st; chatHistory := chatHistory st;
     evidenceFound := evidenceFound st; investigationNotes := v;
     labReady := labReady st; labProcessing := labProcessing st;
     responseIndex := responseIndex st; activeCases := activeCases st;
     user := user st; language := language st; apiKey := apiKey st |}.

Definition set_labReady (v : bool) (st : State) : State :=
  {| currentCase := currentCase st; actionPoints := actionPoints st;
     selectedSuspectId := selectedSuspectId st; chatHistory := chatHistory st;
     evidenceFound := evidenceFound st; investigationNotes := investigationNotes st;
     labReady := v; labProcessing := labProcessing st;
     responseIndex := responseIndex st; activeCases := activeCases st;
     user := user st; language := language st; apiKey := apiKey st |}.

Definition set_labProcessing (v : bool) (st : State) : State :=
  {| currentCase := currentCase st; actionPoints := actionPoints st;
     selectedSuspectId := selectedSuspectId st; chatHistory := chatHistory st;
     evidenceFound := evidenceFound st; investigationNotes := investigationNotes st;
     labReady := labReady st; labProcessing := v;
     responseIndex := responseIndex st; activeCases := activeCases st;
     user := user st; language := language st; apiKey := apiKey st |}.

Definition set_responseIndex (v : gmap string nat) (st : State) : State :=
  {| currentCase := currentCase st; actionPoints := actionPoints st;
     selectedSuspectId := selectedSuspectId st; chatHistory := chatHistory st;
     evidenceFound := evidenceFound st; investigationNotes := investigationNotes st;
     labReady := labReady st; labProcessing := labProcessing st;
     responseIndex := v; activeCases := activeCases st;
     user := user st; language := language st; apiKey := apiKey st |}.

Definition set_user (v : option User) (st : State) : State :=
  {| currentCase := currentCase st; actionPoints := actionPoints st;
     selectedSuspectId := selectedSuspectId st; chatHistory := chatHistory st;
     evidenceFound := evidenceFound st; investigationNotes := investigationNotes st;
     labReady := labReady st; labProcessing := labProcessing st;
     responseIndex := responseIndex st; activeCases := activeCases st;
     user := v; language := language st; apiKey := apiKey st |}.

Definition set_language (v : string) (st : State) : State :=
  {| currentCase := currentCase st; actionPoints := actionPoints st;
     selectedSuspectId := selectedSuspectId st; chatHistory := chatHistory st;
     evidenceFound := evidenceFound st; investigationNotes := investigationNotes st;
     labReady := labReady st; labProcessing := labProcessing st;
     responseIndex := responseIndex st; activeCases := activeCases st;
     user := user st; language := v; apiKey := apiKey st |}.

Definition set_apiKey (v : option string) (st : State) : State :=
  {| currentCase := currentCase st; actionPoints := actionPoints st;
     selectedSuspectId := selectedSuspectId st; chatHistory := chatHistory st;
     evidenceFound := evidenceFound st; investigationNotes := investigationNotes st;
     labReady := labReady st; labProcessing := labProcessing st;
     responseIndex := responseIndex st; activeCases := activeCases st;
     user := user st; language := language st; apiKey := v |}.

(** *** Notes and the action counter *)

Definition addNote (type : NoteKind) (text : Text) (speaker : option string)
    (st : State) : State :=
  set_investigationNotes
    (investigationNotes st ++ [ {| n_type := type; n_text := text; n_speaker := speaker |} ])
    st.

(** [addMessage("system", text)]: every handler below passes the author
    "system", whose branch files the text as a system note. *)
Definition addMessage (text : Text) (st : State) : State :=
  addNote system_note text None (set_chatHistory (chatHistory st ++ [text]) st).

Definition updateActionPoints (st : State) : State :=
  if actionPoints st =? 0 then addMessage TGameOver st else st.

(** [array.includes(item)] on an array of strings. *)
Fixpoint array_includes (array : list string) (item : string) : bool :=
  match array with
  | [] => false
  | x :: rest => String.eqb x item || array_includes rest item
  end.

(** [array.find((item) => item.id === id)]. *)
Definition find_suspect (suspects : list Suspect) (id : string) : option Suspect :=
  List.find (fun item => String.eqb (s_id item) id) suspects.

Definition find_case (cases : list Case) (id : string) : option Case :=
  List.find (fun item => String.eqb (c_id item) id) cases.

(** *** The scripted responder *)

Definition nothing_to_say : string := "I have nothing to say.".

(** [getScriptedResponse(suspect, text)] returns its line ([None] for
    [undefined]) and the state it leaves. *)
Definition getScriptedResponse (suspect : Suspect) (text : string) (st : State)
  : option string * State :=
  let lower := Js.toLowerCase text in
  if Js.includes lower "alibi" || Js.includes lower "where" || Js.includes lower "time"
  then (s_alibi suspect, st)
  else if Js.includes lower "motive" || Js.includes lower "why"
  then (s_motive suspect, st)
  else if Js.includes lower "relationship" || Js.includes lower "victim"
  then (s_relationship suspect, st)
  else if Js.includes lower "evidence" || Js.includes lower "clue"
  then (s_evidence suspect, st)
  else
    let index := default 0%nat (responseIndex st !! s_id suspect) in
    let line :=
      match s_generic suspect with
      | Some generic =>
          match generic with
          | [] => None                       (* [index % 0] is [NaN] *)
          | _ :: _ => generic !! (index mod length generic)%nat
          end
      | None => Some nothing_to_say
      end in
    (line, set_responseIndex (<[s_id suspect := (index + 1)%nat]> (responseIndex st)) st).

(** *** Opening a case and choosing a suspect *)

Definition startCase (caseId : string) (st : State) : State :=
  let caseData := find_case (activeCases st) caseId in
  let st1 :=
    set_chatHistory []
      (set_selectedSuspectId None
         (set_actionPoints 20 (set_currentCase caseData st))) in
  match caseData with
  | None => st1                                (* reading [caseData.evidence] throws *)
  | Some c =>
      let st2 :=
        set_responseIndex ∅
          (set_labProcessing false
             (set_labReady true
                (* a copy of the list: a later [push] does not reach the case *)
                (set_evidenceFound (e_initial (c_evidence c)) st1))) in
      (* setSystemIntro *)
      addNote system_note (TCaseOpened (c_title c) (actionPoints st2)) None
        (set_investigationNotes [] st2)
  end.

Definition selectSuspect (suspectId : string) (st : State) : State :=
  let st1 := set_selectedSuspectId (Some suspectId) st in
  match currentCase st1 with
  | None => st1                                (* reading [suspects] of [null] throws *)
  | Some c =>
      match find_suspect (c_suspects c) suspectId with
      | None => st1                            (* reading [suspect.name] throws *)
      | Some suspect =>
          updateActionPoints
            (addNote system_note (TInterrogationStarted (s_name suspect)) None st1)
      end
  end.

(** *** Interrogation *)

(** [!state.selectedSuspectId]: [null] and the empty string are falsy. *)
Definition no_suspect_selected (st : State) : bool :=
  match selectedSuspectId st with
  | None => true
  | Some id => negb (Js.truthy id)
  end.

(** [handleUserMessage], up to its [await]; [value] is the content of the
    input box. The second component is the reply it now waits for. *)
Definition handleUserMessage (value : string) (st : State)
  : State * option PendingReply :=
  if no_suspect_selected st || (actionPoints st <=? 0) then (st, None)
  else
    let text := Js.trim value in
    if negb (Js.truthy text) then (st, None)
    else
      let st1 := updateActionPoints (set_actionPoints (actionPoints st - 1) st) in
      match currentCase st1 with
      | None => (st1, None)                    (* reading [suspects] of [null] throws *)
      | Some c =>
          (st1,
           Some {| p_suspect :=
                     find_suspect (c_suspects c) (default "" (selectedSuspectId st1));
                   p_text := text;
                   p_viaOracle :=                (* [if (state.apiKey)] *)
                     match apiKey st1 with
                     | Some key => Js.truthy key
                     | None => false
                     end |})
      end.

(** [getScriptedResponse(...) + marker]. *)
Definition with_marker (line : option string) (marker : string) : option string :=
  Some (default "undefined" line ++ marker).

(** [handleUserMessage], after its [await]: the reply arrives. A question
    put to no suspect throws inside the [try] and only shows a chat line. *)
Definition receiveReply (p : PendingReply) (outcome : OracleOutcome) (st : State)
  : State :=
  match p_suspect p with
  | None => st
  | Some suspect =>
      let '(response, st1) :=
        if p_viaOracle p then
          match outcome with
          | OracleReply text => (Some text, st)
          | OracleApiError =>
              let '(line, st') := getScriptedResponse suspect (p_text p) st in
              (with_marker line " (AI Error)", st')
          | OracleFailure =>
              let '(line, st') := getScriptedResponse suspect (p_text p) st in
              (with_marker line " (Connection Error)", st')
          end
        else getScriptedResponse suspect (p_text p) st in
      addNote interrogation_note (TLine response) (Some (s_name suspect))
        (addNote interrogation_note (TQuestion (p_text p)) (Some "Detective") st1)
  end.

(** *** Searches *)

Definition handleSearch (type : string) (st : State) : State :=
  if actionPoints st <=? 0 then st
  else
    match currentCase st with
    | None => st                               (* reading [evidence] of [null] throws *)
    | Some c =>
        let caseEvidence := c_evidence c in
        let '(newItems, searchType) :=
          let '(n1, t1) :=
            if String.eqb type "body"
            then (e_bodySearch caseEvidence, BodySearchLabel)
            else ([], NoSearchLabel) in
          if String.eqb type "room"
          then (e_roomSearch caseEvidence, RoomSearchLabel)
          else (n1, t1) in
        let added :=
          List.filter (fun item => negb (array_includes (evidenceFound st) item)) newItems in
        match added with
        | [] => addNote evidence_note TNoNewEvidence None st
        | _ :: _ =>
            let st1 :=
              set_evidenceFound (evidenceFound st ++ added)
                (set_actionPoints (actionPoints st - 1) st) in
            updateActionPoints
              (fold_left
                 (fun s item => addNote evidence_note (TEvidenceLogged searchType item) None s)
                 added st1)
        end
    end.

(** *** The lab *)

(** [handleLab]: the boolean tells whether the five-second callback was
    scheduled. *)
Definition handleLab (st : State) : State * bool :=
  if (actionPoints st <=? 0) || negb (labReady st) || labProcessing st then (st, false)
  else
    (addMessage TAnalyzing
       (updateActionPoints
          (set_labProcessing true (set_actionPoints (actionPoints st - 1) st))),
     true).

(** The callback [handleLab] scheduled. *)
Definition labComplete (st : State) : State :=
  match currentCase st with
  | None => st                                 (* reading [evidence] of [null] throws *)
  | Some c =>
      let clue := e_labClue (c_evidence c) in
      let st1 :=
        if array_includes (evidenceFound st) clue then st
        else set_evidenceFound (evidenceFound st ++ [clue]) st in
      updateActionPoints
        (addMessage TLabReport (set_labReady false (set_labProcessing false st1)))
  end.

End Session.

(** ** PlayerStats and the accusation *)

Module PlayerStats.

(** The loop [for (i = 0; i < RANKS.length; i++) if (xp >= RANKS[i].threshold)
    newIndex = i], resumed at index [i] with the candidate [newIndex]. *)
Fixpoint rank_loop (xp : Z) (ranks : list Rank) (i newIndex : nat) : nat :=
  match ranks with
  | [] => newIndex
  | r :: rest => rank_loop xp rest (S i) (if threshold r <=? xp then i else newIndex)
  end.

Definition rank_of (ranks : list Rank) (xp : Z) : nat := rank_loop xp ranks 0 0.

Definition set_xp_rank (xp : Z) (rankIndex : nat) (u : User) : User :=
  {| u_id := u_id u;
     u_name := u_name u;
     u_xp := xp;
     u_rankIndex := rankIndex;
     u_language := u_language u;
     u_solvedCases := u_solvedCases u;
     u_currentCase := u_currentCase u;
     u_playTime := u_playTime u;
     u_achievements := u_achievements u;
     u_preferences := u_preferences u;
     u_createdAt := u_createdAt u;
     u_lastLogin := u_lastLogin u;
     u_loginCount := u_loginCount u;
     u_lastUpdated := u_lastUpdated u |}.

(** [PlayerStats.addXP(amount)] over the table [ranks]. *)
Definition addXP_with (ranks : list Rank) (now : Z) (amount : Z) (w : World) : World :=
  match user (w_state w) with
  | None => w
  | Some u =>
      let oldRankIndex := u_rankIndex u in
      let xp := u_xp u + amount in
      let newIndex := rank_of ranks xp in
      let u' := set_xp_rank xp newIndex u in
      let '(_, ls) := GameDatabase.updateUser now (u_id u') u' (w_localStorage w) in
      {| w_state := Session.set_user (Some u') (w_state w);
         w_localStorage := ls;
         w_labTimers := w_labTimers w;
         w_pending := w_pending w;
         w_rankUpModals :=
           if (oldRankIndex <? newIndex)%nat
           then w_rankUpModals w ++ [newIndex]   (* showRankUpModal *)
           else w_rankUpModals w |}
  end.

Definition addXP : Z -> Z -> World -> World := addXP_with RANKS.

End PlayerStats.

Module Accusation.

(** The four constants [handleAccusation] computes from the case, the
    chosen suspect and the normalised motive text. *)
Definition judge (caseData : Case) (suspectId motiveText : string) : Verdict :=
  let hits :=
    length (List.filter (fun keyword => Js.includes motiveText keyword)
                        (c_motiveKeywords caseData)) in
  let required := Js.ceil_half (length (c_motiveKeywords caseData)) in
  {| isCorrectSuspect := String.eqb suspectId (c_killerId caseData);
     keywordHits := hits;
     requiredHits := required;
     isCorrectMotive := (required <=? hits)%nat |}.

Definition success (v : Verdict) : bool := isCorrectSuspect v && isCorrectMotive v.

(** [handleAccusation]; [suspectId] and [motive] are the values of the
    two form fields. *)
Definition handleAccusation (now : Z) (suspectId motive : string) (w : World)
  : World * AccusationOutcome :=
  let motiveText := Js.toLowerCase (Js.trim motive) in
  if negb (Js.truthy suspectId) || negb (Js.truthy motiveText) then (w, InputRejected)
  else
    match currentCase (w_state w) with
    | None => (w, Threw)
    | Some caseData =>
        let v := judge caseData suspectId motiveText in
        match Session.find_suspect (c_suspects caseData) (c_killerId caseData) with
        | None => (w, Threw)                   (* reading [killer.name] throws *)
        | Some _ =>
            let w1 := PlayerStats.addXP now (if success v then 100 else 10) w in
            (with_state
               (Session.addNote system_note (if success v then TCaseSolved else TCaseFailed)
                  None (w_state w1)) w1,
             Resolved v)
        end
    end.

End Accusation.

(** ** Sequences of player actions and timer events *)

Inductive Op :=
| StartCase (caseId : string)
| SelectSuspect (suspectId : string)
| SendMessage (value : string)
| ReplyArrives (i : nat) (outcome : OracleOutcome)
| Search (type : string)
| SendToLab
| LabComplete
| Accuse (now : Z) (suspectId motive : string).

Module Game.

Import PlayerStats.

Definition on_state (f : State -> State) (w : World) : World :=
  with_state (f (w_state w)) w.

Definition step (w : World) (op : Op) : World :=
  match op with
  | StartCase caseId => on_state (Session.startCase caseId) w
  | SelectSuspect suspectId => on_state (Session.selectSuspect suspectId) w
  | SendMessage value =>
      let '(st, p) := Session.handleUserMessage value (w_state w) in
      {| w_state := st; w_localStorage := w_localStorage w; w_labTimers := w_labTimers w;
         w_pending := w_pending w ++ match p with Some q => [q] | None => [] end;
         w_rankUpModals := w_rankUpModals w |}
  | ReplyArrives i outcome =>
      match w_pending w !! i with
      | None => w
      | Some p =>
          {| w_state := Session.receiveReply p outcome (w_state w);
             w_localStorage := w_localStorage w; w_labTimers := w_labTimers w;
             w_pending := delete i (w_pending w);
             w_rankUpModals := w_rankUpModals w |}
      end
  | Search type => on_state (Session.handleSearch type) w
  | SendToLab =>
      let '(st, scheduled) := Session.handleLab (w_state w) in
      {| w_state := st; w_localStorage := w_localStorage w;
         w_labTimers := if scheduled then S (w_labTimers w) else w_labTimers w;
         w_pending := w_pending w; w_rankUpModals := w_rankUpModals w |}
  | LabComplete =>
      match w_labTimers w with
      | O => w                                 (* no callback is waiting *)
      | S n =>
          {| w_state := Session.labComplete (w_state w);
             w_localStorage := w_localStorage w; w_labTimers := n;
             w_pending := w_pending w; w_rankUpModals := w_rankUpModals w |}
      end
  | Accuse now suspectId motive =>
      fst (Accusation.handleAccusation now suspectId motive w)
  end.

Definition run (w : World) (ops : list Op) : World := fold_left step ops w.

(** A page on which no case was opened yet: the [state] literal of the
    script with the loaded cases, the logged-in player and the API key
    filled in, over the stored item [ls]. *)
Definition world0 (cases : list Case) (u : option User) (key : option string)
    (ls : option Doc) : World :=
  {| w_state :=
       {| currentCase := None; actionPoints := 0; selectedSuspectId := None;
          chatHistory := []; evidenceFound := []; investigationNotes := [];
          labReady := false; labProcessing := false; responseIndex := ∅;
          activeCases := cases; user := u; language := "en"; apiKey := None |};
     w_localStorage := ls; w_labTimers := 0; w_pending := []; w_rankUpModals := [] |}.

Definition set_u_language (lang : string) (u : User) : User :=
  {| u_id := u_id u; u_name := u_name u; u_xp := u_xp u;
     u_rankIndex := u_rankIndex u; u_language := lang;
     u_solvedCases := u_solvedCases u; u_currentCase := u_currentCase u;
     u_playTime := u_playTime u; u_achievements := u_achievements u;
     u_preferences := u_preferences u; u_createdAt := u_createdAt u;
     u_lastLogin := u_lastLogin u; u_loginCount := u_loginCount u;
     u_lastUpdated := u_lastUpdated u |}.

(** [translations[lang]] is defined: for the two languages of the table,
    and for the names of the functions the table inherits. *)
Definition has_translations (lang : string) : bool :=
  String.eqb lang "en" || String.eqb lang "bn" || Js.inherited lang.

(** [handleLogin(name)]: [GameDatabase.login], the session settings, then
    [updateUILanguage], which writes the language to the profile through
    [updateUser], and the greeting. Between the two, [updateKeyStatus] reads
    [translations[state.language].statusMissing] and [PlayerStats.updateUI]
    reads [RANKS[state.user.rankIndex].title]: without translations for the
    language, or with a rank index outside the table, the handler ends there
    and the greeting is not added.

    The result is [None] when [login] returns an inherited function: it
    becomes [state.user], and [State] holds profiles only, so that page is
    outside the model. *)
Definition handleLogin (now : Z) (name : string) (w : World) : option World :=
  if negb (Js.truthy (Js.trim name)) then Some w
  else
    match GameDatabase.login now (Js.trim name) (w_localStorage w) with
    | (NoEntry, ls) =>                         (* reading [user.language] throws *)
        Some {| w_state := Session.set_user None (w_state w);
                w_localStorage := ls; w_labTimers := w_labTimers w;
                w_pending := w_pending w; w_rankUpModals := w_rankUpModals w |}
    | (Builtin _, _) => None
    | (Profile u, ls) =>
        let lang := Js.or_else (u_language u) "en" in
        let u' := set_u_language lang u in
        let st1 :=
          Session.set_user (Some u')
            (Session.set_apiKey None (Session.set_language lang (w_state w))) in
        let '(_, ls') := GameDatabase.updateUser now (u_id u') u' ls in
        Some {| w_state :=
                  if has_translations lang && (u_rankIndex u' <? List.length RANKS)%nat
                  then Session.addMessage (TWelcome (u_name u)) st1
                  else st1;
                w_localStorage := ls'; w_labTimers := w_labTimers w;
                w_pending := w_pending w; w_rankUpModals := w_rankUpModals w |}
    end.

End Game.

(** ** Vocabulary of the statements *)

(** [kw] occurs in [text]: [text] is [pre], then [kw], then [post]. *)
Definition occurs_in (kw text : string) : Prop :=
  exists pre post : string, text = pre +:+ kw +:+ post.


(** A string is in lower case when it has no letter [A]-[Z]. *)
Fixpoint no_upper (s : string) : bool :=
  match s with
  | EmptyString => true
  | String c r => negb (Js.is_upper c) && no_upper r
  end.

(** ** Sample data *)

Module Examples.

Definition butler : Suspect :=
  {| s_id := "suspect_1"; s_name := "Edgar Finch"; s_persona := "Butler, 58";
     s_alibi := Some "I was polishing the silver.";
     s_motive := Some "He owed me wages.";
     s_relationship := Some "Employer";
     s_evidence := Some "My gloves were in the study.";
     s_generic := Some ["I know my place."; "Ask the family."; "Will that be all?"] |}.

(** A suspect as the generated cases describe them: no [generic] list. *)
Definition niece : Suspect :=
  {| s_id := "suspect_2"; s_name := "Clara Voss"; s_persona := "Niece, 24";
     s_alibi := Some "I was at the opera.";
     s_motive := Some "The inheritance.";
     s_relationship := Some "Niece";
     s_evidence := Some "A torn ticket.";
     s_generic := None |}.

Definition manor : Case :=
  {| c_id := "case_1"; c_title := "Death at the Manor";
     c_suspects := [butler; niece];
     c_evidence :=
       {| e_initial := ["Broken window"; "Muddy footprints"];
          e_bodySearch := ["Locket"; "Unsent letter"];
          e_roomSearch := ["Letter opener"; "Burnt paper"];
          e_labClue := "Fingerprint match";
          e_smokingGun := "Phone record" |};
     c_killerId := "suspect_2";
     c_motiveKeywords := ["money"; "debt"; "revenge"] |}.

(** The same case with a keyword written with a capital letter. *)
Definition manor_capital : Case :=
  {| c_id := "case_1"; c_title := "Death at the Manor";
     c_suspects := [butler; niece];
     c_evidence := c_evidence manor;
     c_killerId := "suspect_2";
     c_motiveKeywords := ["Money"] |}.

(** A case whose scene lists the same clue twice. *)
Definition alley : Case :=
  {| c_id := "case_2"; c_title := "The Alley";
     c_suspects := [butler];
     c_evidence :=
       {| e_initial := ["Shell casing"; "Shell casing"];
          e_bodySearch := ["Wallet"];
          e_roomSearch := ["Knife"];
          e_labClue := "Blood type";
          e_smokingGun := "Confession" |};
     c_killerId := "suspect_1";
     c_motiveKeywords := ["jealousy"] |}.

(** A case whose lab clue already lies at the scene. *)
Definition cellar : Case :=
  {| c_id := "case_3"; c_title := "The Cellar";
     c_suspects := [butler];
     c_evidence :=
       {| e_initial := ["Blood sample"];
          e_bodySearch := ["Key"];
          e_roomSearch := ["Rope"];
          e_labClue := "Blood sample";
          e_smokingGun := "Diary" |};
     c_killerId := "suspect_1";
     c_motiveKeywords := ["fear"] |}.

Definition opened (c : Case) : World :=
  Game.run (Game.world0 [c] None None None) [StartCase (c_id c)].

(** The profile and the document [createUser("Jane Doe!")] leaves in an
    empty store at time 1. *)
Definition jane : User :=
  {| u_id := "jane_doe_"; u_name := "Jane Doe!"; u_xp := 0; u_rankIndex := 0%nat;
     u_language := "en"; u_solvedCases := []; u_currentCase := None; u_playTime := 0;
     u_achievements := []; u_preferences := GameDatabase.default_preferences;
     u_createdAt := 1; u_lastLogin := 1; u_loginCount := None; u_lastUpdated := None |}.

Definition jane_doc : Doc :=
  {| d_version := 2; d_users := {[ "jane_doe_" := jane ]}; d_lastUser := None;
     d_settings := GameDatabase.default_settings;
     d_statistics :=
       {| totalUsers := 1; totalCasesSolved := 0; totalPlayTime := 0;
          stat_lastUpdated := 1 |};
     d_lastUpdated := Some 1 |}.

Definition manor_solved : CaseData :=
  {| cd_id := Some "case_1"; cd_caseId := None; cd_title := Some "Death at the Manor";
     cd_accuracy := None; cd_timeTaken := Some 340; cd_score := Some 100 |}.

(** A first visit: the script finds no stored item and [init] writes the
    fresh document at time 0; "Jane" logs in at time 1. *)
Definition first_visit : World :=
  Game.world0 [manor] None None (GameDatabase.init 0 None).

Definition jane_logged_in : World :=
  match Game.handleLogin 1 "Jane" first_visit with
  | Some w => w
  | None => first_visit
  end.

(** Open the manor, search the body, then open the alley. *)
Definition two_cases : list Op :=
  [StartCase "case_1"; Search "body"; StartCase "case_2"].

(** Send to the lab three times around two completions of the timer. *)
Definition lab_run : list Op :=
  [SendToLab; SendToLab; Search "room"; LabComplete; SendToLab; LabComplete].

(** Open the case, pick the butler and ask twenty questions. *)
Definition exhaust : list Op :=
  StartCase "case_1" :: SelectSuspect "suspect_1" :: repeat (SendMessage "Why?") 20.

Definition exhausted : World :=
  Game.run (Game.world0 [manor] (Some jane) None (Some jane_doc)) exhaust.

(** A well-formed stored document as JSON. *)
Definition stored_json : json :=
  JObj (<["version" := JNum 2]>
       (<["users" := JObj ∅]>
       (<["lastUser" := JNull]>
       (<["settings" := JObj (<["autoSave" := JBool true]> ∅)]>
       (<["statistics" := JObj (<["totalUsers" := JNum 0]> ∅)]> ∅))))).

End Examples.

(** ** Vocabulary for user ids *)

Fixpoint all_chars (p : ascii -> bool) (s : string) : bool :=
  match s with
  | EmptyString => true
  | String c r => p c && all_chars p r
  end.

(** No underscore is followed by another one. *)
Fixpoint no_double_underscore (s : string) : bool :=
  match s with
  | EmptyString => true
  | String c r =>
      match r with
      | String d _ => negb (Js.is_underscore c && Js.is_underscore d)
      | EmptyString => true
      end && no_double_underscore r
  end.

(** The two strings have the same letters up to their case. *)
Fixpoint eq_ignoring_case (s t : string) : bool :=
  match s, t with
  | EmptyString, EmptyString => true
  | String a s', String b t' =>
      Ascii.eqb (Js.lower_char a) (Js.lower_char b) && eq_ignoring_case s' t'
  | _, _ => false
  end.

(** Two names differ only in letter case and surrounding white space. *)
Definition same_name (n1 n2 : string) : Prop :=
  exists l1 r1 l2 r2 core1 core2 : string,
    n1 = l1 +:+ core1 +:+ r1 /\ n2 = l2 +:+ core2 +:+ r2 /\
    all_chars Js.is_space l1 = true /\ all_chars Js.is_space r1 = true /\
    all_chars Js.is_space l2 = true /\ all_chars Js.is_space r2 = true /\
    eq_ignoring_case core1 core2 = true.

(** Following the words of the specification: "collapsing consecutive
    underscores to one", that is, dropping every underscore that comes right
    after an underscore ([after] tells whether the previous character was
    one). *)
Fixpoint squeeze_underscores (after : bool) (s : string) : string :=
  match s with
  | EmptyString => EmptyString
  | String c r =>
      if Js.is_underscore c
      then if after then squeeze_underscores true r
           else String c (squeeze_underscores true r)
      else String c (squeeze_underscores false r)
  end.

(** ** Vocabulary for ranks *)

(** [i] is the highest index of [ranks] whose threshold [xp] reaches. *)
Definition highest_rank (ranks : list Rank) (xp : Z) (i : nat) : Prop :=
  (exists r, ranks !! i = Some r /\ threshold r <= xp) /\
  (forall j r, (i < j)%nat -> ranks !! j = Some r -> xp < threshold r).

(** ** Vocabulary for sessions *)

(** The part of [state] the action budget, the evidence and the lab live
    in. *)
Definition core (st : State)
  : option Case * list Case * list string * Z * bool * bool :=
  (currentCase st, activeCases st, evidenceFound st, actionPoints st,
   labReady st, labProcessing st).

(** The list a search of the given type draws from. *)
Definition search_list (type : string) (c : Case) : list string :=
  if String.eqb type "room" then e_roomSearch (c_evidence c)
  else if String.eqb type "body" then e_bodySearch (c_evidence c)
  else [].

(** The items of [items] that are not in [found]: the set difference. *)
Definition not_yet_found (found items : list string) : list string :=
  List.filter (fun item => negb (Session.array_includes found item)) items.

Definition is_start (op : Op) : bool :=
  match op with StartCase _ => true | _ => false end.

(** The lists of a case name no clue twice. *)
Definition duplicate_free (c : Case) : Prop :=
  List.NoDup (e_initial (c_evidence c)) /\
  List.NoDup (e_bodySearch (c_evidence c)) /\
  List.NoDup (e_roomSearch (c_evidence c)).

(** What a run keeps true when the loaded cases name no clue twice. *)
Definition tidy (cases : list Case) (w : World) : Prop :=
  activeCases (w_state w) = cases /\
  (forall c, currentCase (w_state w) = Some c -> In c cases) /\
  List.NoDup (evidenceFound (w_state w)).

Definition no_start (ops : list Op) : bool :=
  forallb (fun op => negb (is_start op)) ops.

(** Whether the step [op] is a lab callback that lengthens
    [evidenceFound]. *)
Definition lab_gain (w : World) (op : Op) : nat :=
  match op with
  | LabComplete =>
      if (length (evidenceFound (w_state w))
          <? length (evidenceFound (w_state (Game.step w op))))%nat
      then 1%nat else 0%nat
  | _ => 0%nat
  end.

(** How many lab callbacks of the run [ops] from [w] lengthen
    [evidenceFound]. *)
Fixpoint lab_additions (w : World) (ops : list Op) : nat :=
  match ops with
  | [] => 0%nat
  | op :: rest => (lab_gain w op + lab_additions (Game.step w op) rest)%nat
  end.

(** ** Vocabulary for the store *)

(** The number of solved cases over all profiles. *)
Definition solved_total (users : gmap string User) : Z :=
  map_fold (fun _ user acc => acc + Z.of_nat (length (u_solvedCases user))) 0 users.

(** The profile a first [login] returns for [name] at time [now]. *)
Definition first_profile (now : Z) (name : string) : User :=
  {| u_id := GameDatabase._generateUserId name;
     u_name := Js.trim name;
     u_xp := 0;
     u_rankIndex := 0%nat;
     u_language := "en";
     u_solvedCases := [];
     u_currentCase := None;
     u_playTime := 0;
     u_achievements := [];
     u_preferences := GameDatabase.default_preferences;
     u_createdAt := now;
     u_lastLogin := now;
     u_loginCount := Some 1;
     u_lastUpdated := None |}.

(** ** Vocabulary for the budget, the evidence and the lab *)

(** The steps that can take an action point. *)
Definition may_cost (op : Op) : bool :=
  match op with
  | SendMessage _ | Search _ | SendToLab => true
  | _ => false
  end.

(** Every item of [items] is a clue of the case [c] that a search or the lab
    can bring up, or one of its initial clues. *)
Definition from_case (c : Case) (items : list string) : Prop :=
  forall item, In item items ->
    In item (e_initial (c_evidence c)) \/ In item (e_bodySearch (c_evidence c)) \/
    In item (e_roomSearch (c_evidence c)) \/ item = e_labClue (c_evidence c).

(** While a case is open, the evidence comes from that case. *)
Definition evidence_of_case (w : World) : Prop :=
  forall c, currentCase (w_state w) = Some c -> from_case c (evidenceFound (w_state w)).

(** While a case is open, an analysis in progress has its callback
    waiting. *)
Definition analysis_pending (w : World) : Prop :=
  forall c, currentCase (w_state w) = Some c ->
    labProcessing (w_state w) = true -> (1 <= w_labTimers w)%nat.

(** ** Vocabulary for interrogations *)



(** * Properties *)

(** ** Facts about the string methods *)

Section JsFacts.

Import Js.

Lemma startsWith_append (s p : string) :
  startsWith s p = true <-> exists post, s = p +:+ post.
Proof.
  revert s. induction p as [|a p IH]; intros s; simpl.
  - split; [intros _; exists s; reflexivity | intros _; now destruct s].
  - destruct s as [|b s]; simpl.
    + split; [discriminate | intros [post H]; discriminate].
    + rewrite andb_true_iff, Ascii.eqb_eq, IH. split.
      * intros [-> [post ->]]. exists post. reflexivity.
      * intros [post H]. injection H as -> ->. split; [reflexivity | eauto].
Qed.

Lemma includes_occurs (text kw : string) :
  includes text kw = true <-> occurs_in kw text.
Proof.
  unfold occurs_in. induction text as [|c text IH].
  - cbn [includes]. rewrite orb_false_r, startsWith_append. split.
    + intros [post H]. exists "", post. exact H.
    + intros [[|a pre] [post H]]; [exists post; exact H | discriminate].
  - cbn [includes]. rewrite orb_true_iff, startsWith_append, IH. split.
    + intros [[post H] | (pre & post & H)].
      * exists "", post. exact H.
      * exists (String c pre), post. simpl. rewrite H. reflexivity.
    + intros [[|a pre] [post H]].
      * left. exists post. exact H.
      * right. simpl in H. injection H as -> H. eauto.
Qed.

Lemma includes_not_occurs (text kw : string) :
  includes text kw = false <-> ~ occurs_in kw text.
Proof.
  rewrite <- includes_occurs. destruct (includes text kw); split; congruence.
Qed.

(** [ceil_half n] is the least integer not below [n / 2]. *)
Lemma ceil_half_spec (n : nat) :
  (n <= 2 * ceil_half n)%nat /\ (2 * ceil_half n < n + 2)%nat.
Proof.
  unfold ceil_half.
  pose proof (Nat.div_mod_eq n 2) as E.
  pose proof (Nat.mod_upper_bound n 2 ltac:(lia)) as B.
  lia.
Qed.

Lemma ceil_half_least (n r : nat) : (n <= 2 * r)%nat -> (ceil_half n <= r)%nat.
Proof. pose proof (ceil_half_spec n). lia. Qed.

Lemma lower_char_idem (c : ascii) : lower_char (lower_char c) = lower_char c.
Proof. destruct c as [[] [] [] [] [] [] [] []]; reflexivity. Qed.

Lemma lower_char_not_upper (c : ascii) : is_upper (lower_char c) = false.
Proof. destruct c as [[] [] [] [] [] [] [] []]; reflexivity. Qed.

Lemma is_space_lower_char (c : ascii) : is_space (lower_char c) = is_space c.
Proof. destruct c as [[] [] [] [] [] [] [] []]; reflexivity. Qed.

Lemma toLowerCase_idem (s : string) : toLowerCase (toLowerCase s) = toLowerCase s.
Proof. induction s as [|c s IH]; simpl; [reflexivity|]. now rewrite lower_char_idem, IH. Qed.

Lemma toLowerCase_append (s t : string) :
  toLowerCase (s +:+ t) = toLowerCase s +:+ toLowerCase t.
Proof. induction s as [|c s IH]; simpl; [reflexivity | now rewrite IH]. Qed.

Lemma no_upper_toLowerCase (s : string) : no_upper (toLowerCase s) = true.
Proof.
  induction s as [|c s IH]; simpl; [reflexivity|].
  now rewrite lower_char_not_upper, IH.
Qed.

Lemma toLowerCase_no_upper (s : string) : no_upper s = true -> toLowerCase s = s.
Proof.
  induction s as [|c s IH]; simpl; [reflexivity|].
  rewrite andb_true_iff, negb_true_iff. intros [Hc Hs].
  unfold lower_char. now rewrite Hc, IH.
Qed.

Lemma no_upper_append (s t : string) :
  no_upper (s +:+ t) = no_upper s && no_upper t.
Proof. induction s as [|c s IH]; simpl; [reflexivity|]. now rewrite IH, andb_assoc. Qed.

Lemma trimStart_toLowerCase (s : string) :
  trimStart (toLowerCase s) = toLowerCase (trimStart s).
Proof.
  induction s as [|c s IH]; simpl; [reflexivity|].
  rewrite is_space_lower_char. destruct (is_space c); [exact IH | reflexivity].
Qed.

Lemma trimEnd_toLowerCase (s : string) :
  trimEnd (toLowerCase s) = toLowerCase (trimEnd s).
Proof.
  induction s as [|c s IH]; simpl; [reflexivity|].
  rewrite IH. destruct (trimEnd s) as [|d r]; simpl.
  - rewrite is_space_lower_char. now destruct (is_space c).
  - reflexivity.
Qed.

(** Lower-casing and trimming can be done in either order. *)
Lemma trim_toLowerCase (s : string) : trim (toLowerCase s) = toLowerCase (trim s).
Proof. unfold trim. now rewrite trimStart_toLowerCase, trimEnd_toLowerCase. Qed.

End JsFacts.

(** ** The accusation *)

Section AccusationFacts.

Import Accusation.

(** What [handleAccusation] computes for admissible input on an open case
    whose killer is one of its suspects. *)
Lemma handleAccusation_resolved (now : Z) (suspectId motive : string) (w : World)
    (caseData : Case) (killer : Suspect) :
  Js.truthy suspectId = true ->
  Js.truthy (Js.toLowerCase (Js.trim motive)) = true ->
  currentCase (w_state w) = Some caseData ->
  Session.find_suspect (c_suspects caseData) (c_killerId caseData) = Some killer ->
  snd (handleAccusation now suspectId motive w)
  = Resolved (judge caseData suspectId (Js.toLowerCase (Js.trim motive))).
Proof.
  intros Hs Hm Hc Hk. unfold handleAccusation.
  rewrite Hs, Hm, Hc, Hk. reflexivity.
Qed.

Lemma handleAccusation_rejected (now : Z) (suspectId motive : string) (w : World) :
  Js.truthy suspectId = false \/ Js.truthy (Js.toLowerCase (Js.trim motive)) = false ->
  handleAccusation now suspectId motive w = (w, InputRejected).
Proof.
  intros H. unfold handleAccusation.
  destruct H as [-> | ->]; [reflexivity | now rewrite orb_true_r].
Qed.

(** The verdict, field by field. *)
Lemma judge_fields (caseData : Case) (suspectId motiveText : string) :
  let v := judge caseData suspectId motiveText in
  let n := length (c_motiveKeywords caseData) in
  (isCorrectSuspect v = true <-> suspectId = c_killerId caseData) /\
  keywordHits v
    = length (List.filter (fun kw => Js.includes motiveText kw) (c_motiveKeywords caseData)) /\
  (forall kw, Js.includes motiveText kw = true <-> occurs_in kw motiveText) /\
  (n <= 2 * requiredHits v /\ 2 * requiredHits v < n + 2)%nat /\
  (isCorrectMotive v = true <-> (requiredHits v <= keywordHits v)%nat) /\
  (success v = true <-> isCorrectSuspect v = true /\ isCorrectMotive v = true).
Proof.
  cbn zeta. unfold success. cbn [judge isCorrectSuspect keywordHits requiredHits isCorrectMotive].
  repeat match goal with |- _ /\ _ => split end.
  - split; [apply String.eqb_eq | intros ->; apply String.eqb_refl].
  - reflexivity.
  - intros kw. apply includes_occurs.
  - apply ceil_half_spec.
  - apply ceil_half_spec.
  - apply Nat.leb_le.
  - apply andb_true_iff.
Qed.

(** With keywords in lower case the count is the count of keywords that
    occur in the motive whatever the case of the letters. *)
Lemma judge_lower_keywords (caseData : Case) (suspectId motive : string) :
  Forall (fun kw => no_upper kw = true) (c_motiveKeywords caseData) ->
  keywordHits (judge caseData suspectId (Js.toLowerCase (Js.trim motive)))
  = length (List.filter
              (fun kw => Js.includes (Js.toLowerCase (Js.trim motive)) (Js.toLowerCase kw))
              (c_motiveKeywords caseData)).
Proof.
  intros H. cbn [judge keywordHits]. f_equal.
  induction H as [|kw kws Hkw _ IH]; [reflexivity|].
  cbn [List.filter]. rewrite (toLowerCase_no_upper kw Hkw), IH. reflexivity.
Qed.

(** C1, at a keyword written with a capital: the case lists the keyword
    "Money", the player accuses the killer and gives the motive "money".
    One keyword occurs in the motive when letter case is ignored, yet the
    handler counts no hit, so the motive and the accusation fail. *)
Theorem handleAccusation_capital_keyword :
  snd (handleAccusation 0 "suspect_2" "money" (Examples.opened Examples.manor_capital))
  = Resolved {| isCorrectSuspect := true; keywordHits := 0;
                requiredHits := 1; isCorrectMotive := false |}
  /\ length (List.filter
               (fun kw => Js.includes (Js.toLowerCase (Js.trim "money")) (Js.toLowerCase kw))
               (c_motiveKeywords Examples.manor_capital)) = 1%nat.
Proof. split; reflexivity. Qed.

End AccusationFacts.

(** ** The scripted responder *)

Section ScriptedResponder.

Import Session.






End ScriptedResponder.

(** ** User ids *)

Section UserIds.

Import Js GameDatabase.

Lemma trimStart_blank (l s : string) :
  all_chars is_space l = true -> trimStart (l +:+ s) = trimStart s.
Proof.
  induction l as [|c l IH]; simpl; [reflexivity|].
  rewrite andb_true_iff. intros [-> H]. auto.
Qed.

Lemma trimEnd_blank (r : string) : all_chars is_space r = true -> trimEnd r = "".
Proof.
  induction r as [|c r IH]; simpl; [reflexivity|].
  rewrite andb_true_iff. intros [-> H]. now rewrite IH.
Qed.

Lemma trimEnd_append_blank (s r : string) :
  all_chars is_space r = true -> trimEnd (s +:+ r) = trimEnd s.
Proof.
  intros H. induction s as [|c s IH]; simpl.
  - now apply trimEnd_blank.
  - now rewrite IH.
Qed.

Lemma trimStart_all_blank (r : string) : all_chars is_space r = true -> trimStart r = "".
Proof.
  induction r as [|c r IH]; simpl; [reflexivity|].
  rewrite andb_true_iff. intros [-> H]. auto.
Qed.

(** Trimming forgets white space put around a string. *)
Lemma trim_padding (l s r : string) :
  all_chars is_space l = true -> all_chars is_space r = true ->
  trim (l +:+ s +:+ r) = trim s.
Proof.
  intros Hl Hr. unfold trim. rewrite (trimStart_blank l _ Hl).
  induction s as [|c s IH].
  - change ("" +:+ r) with r. now rewrite (trimStart_all_blank r Hr).
  - change (String c s +:+ r) with (String c (s +:+ r)). cbn [trimStart].
    destruct (is_space c); [exact IH|].
    change (String c (s +:+ r)) with (String c s +:+ r).
    now apply trimEnd_append_blank.
Qed.

Lemma eq_ignoring_case_toLowerCase (s t : string) :
  eq_ignoring_case s t = true <-> toLowerCase s = toLowerCase t.
Proof.
  revert t. induction s as [|a s IH]; intros [|b t]; simpl; try easy.
  rewrite andb_true_iff, Ascii.eqb_eq, IH. split.
  - now intros [-> ->].
  - intros H. now injection H.
Qed.

(** Names that differ only in case and surrounding white space normalise to
    the same text. *)
Lemma same_name_normal (n1 n2 : string) :
  same_name n1 n2 -> trim (toLowerCase n1) = trim (toLowerCase n2).
Proof.
  intros (l1 & r1 & l2 & r2 & c1 & c2 & -> & -> & Hl1 & Hr1 & Hl2 & Hr2 & Hc).
  apply eq_ignoring_case_toLowerCase in Hc.
  rewrite !trim_toLowerCase, !trim_padding by assumption.
  rewrite <- !trim_toLowerCase. now rewrite Hc.
Qed.

Lemma replace_non_id_chars (s : string) : all_chars is_id_char (replace_non_id s) = true.
Proof.
  induction s as [|c s IH]; simpl; [reflexivity|].
  rewrite IH, andb_true_r. now destruct (is_id_char c) eqn:E.
Qed.

(** The scan of the source and the wording of the specification agree. *)
Lemma collapse_underscores_squeeze (s : string) :
  collapse_underscores s = squeeze_underscores false s.
Proof.
  enough (H : (fix skip (t : string) : string :=
                 match t with
                 | EmptyString => EmptyString
                 | String d u =>
                     if is_underscore d then skip u
                     else String d (collapse_underscores u)
                 end) s = squeeze_underscores true s
              /\ collapse_underscores s = squeeze_underscores false s) by apply H.
  induction s as [|c s [IH1 IH2]]; [split; reflexivity|].
  split; cbn [collapse_underscores squeeze_underscores].
  - destruct (is_underscore c); [exact IH1 | now rewrite IH2].
  - destruct (is_underscore c) eqn:E.
    + apply Ascii.eqb_eq in E. subst c. now rewrite IH1.
    + now rewrite IH2.
Qed.

Lemma squeeze_chars (p : ascii -> bool) (after : bool) (s : string) :
  all_chars p s = true -> all_chars p (squeeze_underscores after s) = true.
Proof.
  revert after. induction s as [|c s IH]; intros after; simpl; [reflexivity|].
  rewrite andb_true_iff. intros [Hc Hs].
  destruct (is_underscore c), after; simpl; rewrite ?Hc; simpl; auto.
Qed.

Lemma squeeze_head (s : string) :
  match squeeze_underscores true s with
  | String d _ => is_underscore d = false
  | EmptyString => True
  end.
Proof.
  induction s as [|c s IH]; simpl; [exact I|].
  destruct (is_underscore c) eqn:E; [exact IH | exact E].
Qed.

Lemma squeeze_no_double (after : bool) (s : string) :
  no_double_underscore (squeeze_underscores after s) = true.
Proof.
  revert after. induction s as [|c s IH]; intros after; [reflexivity|].
  cbn [squeeze_underscores].
  destruct (is_underscore c) eqn:E; [destruct after|]; try apply IH.
  - cbn [no_double_underscore]. rewrite IH, andb_true_r.
    pose proof (squeeze_head s) as H.
    destruct (squeeze_underscores true s); [reflexivity|]. now rewrite H, andb_false_r.
  - cbn [no_double_underscore]. rewrite IH, andb_true_r, E.
    now destruct (squeeze_underscores false s).
Qed.

Lemma generateUserId_chars (name : string) :
  all_chars is_id_char (_generateUserId name) = true
  /\ no_double_underscore (_generateUserId name) = true.
Proof.
  unfold _generateUserId. rewrite collapse_underscores_squeeze. split.
  - apply squeeze_chars, replace_non_id_chars.
  - apply squeeze_no_double.
Qed.

(** The id is the lower-cased, trimmed name with every character outside
    [a-z0-9_] replaced by an underscore and runs of underscores collapsed.
    Two names that differ only in letter case and surrounding white space
    get the same id; unless that id names an inherited function, after
    [createUser] under one of them a [login] under the other returns the
    profile stored under that id, which is the id of the profile
    [createUser] made, and records it as the last user. *)
Lemma generateUserId_same_profile (n1 n2 : string) (now1 now2 : Z) (ls : option Doc) :
  same_name n1 n2 ->
  Js.inherited (_generateUserId n1) = false ->
  let id := _generateUserId n1 in
  id = squeeze_underscores false (replace_non_id (trim (toLowerCase n1))) /\
  all_chars is_id_char id = true /\
  no_double_underscore id = true /\
  _generateUserId n2 = id /\
  exists (found : User) (doc : Doc),
    login now2 n2 (snd (createUser now1 n1 ls)) = (Profile found, Some doc) /\
    d_users doc !! id = Some found /\
    d_lastUser doc = Some id /\
    (forall created, fst (createUser now1 n1 ls) = Some created ->
       u_id created = id /\ u_id found = id).
Proof.
  intros Hsame Hown. cbn zeta.
  assert (Hid : _generateUserId n2 = _generateUserId n1).
  { unfold _generateUserId. now rewrite (same_name_normal _ _ Hsame). }
  split; [apply collapse_underscores_squeeze|].
  split; [apply generateUserId_chars|]. split; [apply generateUserId_chars|].
  split; [exact Hid|].
  unfold createUser.
  destruct (getDB now1 ls) as [db ls0] eqn:Edb.
  assert (Els0 : ls0 = Some db).
  { unfold getDB in Edb. destruct ls; cbn in Edb; now injection Edb as <- <-. }
  subst ls0. unfold users_at. rewrite Hown.
  destruct (d_users db !! _generateUserId n1) as [existing|] eqn:E; cbn [fst snd].
  - unfold login, getDB, users_at. rewrite Hid, E.
    eexists _, _. split; [reflexivity|].
    cbn [_save d_users d_lastUser set_lastUser set_users].
    rewrite lookup_insert_eq. repeat split; discriminate.
  - unfold login, _save, getDB, users_at. rewrite Hid. cbn [d_users].
    rewrite lookup_insert_eq.
    eexists _, _. split; [reflexivity|].
    cbn [d_users d_lastUser set_lastUser set_users].
    rewrite lookup_insert_eq. split; [reflexivity|]. split; [reflexivity|].
    intros created H. injection H as <-. split; reflexivity.
Qed.

Lemma generateUserId_jane :
  _generateUserId "jane doe!" = "jane_doe_"
  /\ _generateUserId "Jane Doe!" = "jane_doe_"
  /\ exists found doc,
       login 2 "jane doe!" (snd (createUser 1 "Jane Doe!" None)) = (Profile found, Some doc)
       /\ u_id found = "jane_doe_"
       /\ d_lastUser doc = Some "jane_doe_".
Proof.
  assert (Hs : same_name "Jane Doe!" "jane doe!").
  { exists "", "", "", "", "Jane Doe!", "jane doe!". repeat split; reflexivity. }
  destruct (generateUserId_same_profile "Jane Doe!" "jane doe!" 1 2 None Hs eq_refl)
    as (_ & _ & _ & H2 & found & doc & Hl & _ & Hd & Hc).
  split; [exact H2|]. split; [reflexivity|].
  exists found, doc. split; [exact Hl|]. split; [|exact Hd].
  exact (proj2 (Hc Examples.jane eq_refl)).
Qed.

(** C8: the derivation of the id is as claimed, and two names that differ
    only in letter case and surrounding white space get the same id, but
    they do not always resolve to a stored profile. "Constructor" and
    " constructor " both get the id "constructor", under which the users
    object of any document shows the function it inherits: on an empty
    store [createUser] finds a user there and refuses, and the [login] that
    follows takes the function for the user, returns it, and stores no
    profile, only the id as the last user. *)
Theorem login_constructor_no_profile (now1 now2 : Z) :
  same_name "Constructor" " constructor " /\
  _generateUserId "Constructor" = "constructor" /\
  _generateUserId " constructor " = "constructor" /\
  fst (createUser now1 "Constructor" None) = None /\
  exists doc,
    login now2 " constructor " (snd (createUser now1 "Constructor" None))
      = (Builtin "constructor", Some doc) /\
    d_users doc = ∅ /\
    d_lastUser doc = Some "constructor".
Proof.
  split.
  { exists "", "", " ", " ", "Constructor", "constructor". repeat split; reflexivity. }
  split; [reflexivity|]. split; [reflexivity|]. split; [reflexivity|].
  eexists. split; [reflexivity|]. split; reflexivity.
Qed.

End UserIds.

(** ** Solved cases and the aggregate counter *)

Section SolvedCases.

Import GameDatabase.

(** C10: for a user present in the stored document, [addSolvedCase] stores
    the profile with exactly one record appended to [solvedCases] and
    reports it, while the stored statistics, [totalCasesSolved] among them,
    and every other profile stay as they were. *)
Theorem addSolvedCase_counter_unchanged (now : Z) (userId : string)
    (caseData : CaseData) (doc : Doc) (profile : User) :
  d_users doc !! userId = Some profile ->
  exists (profile' : User) (doc' : Doc),
    addSolvedCase now userId caseData (Some doc) = (Some profile', Some doc') /\
    d_users doc' !! userId = Some profile' /\
    u_solvedCases profile' = (u_solvedCases profile ++ [solvedCase_of now caseData])%list /\
    totalCasesSolved (d_statistics doc') = totalCasesSolved (d_statistics doc) /\
    d_statistics doc' = d_statistics doc /\
    (forall other, other <> userId -> d_users doc' !! other = d_users doc !! other).
Proof.
  intros H. unfold addSolvedCase, getUser, updateUser, getDB, users_at. rewrite H.
  eexists _, _. split; [reflexivity|].
  cbn [d_users d_statistics set_users u_solvedCases assign_safe push_solved].
  rewrite lookup_insert_eq. repeat split.
  intros other Hne. now rewrite lookup_insert_ne.
Qed.

Lemma addSolvedCase_counter_unchanged_witness :
  exists profile' doc',
    addSolvedCase 5 "jane_doe_" Examples.manor_solved (Some Examples.jane_doc)
      = (Some profile', Some doc')
    /\ length (u_solvedCases profile') = 1%nat
    /\ totalCasesSolved (d_statistics doc') = 0.
Proof.
  destruct (addSolvedCase_counter_unchanged 5 "jane_doe_" Examples.manor_solved
              Examples.jane_doc Examples.jane eq_refl)
    as (p & d & H1 & _ & H3 & H4 & _).
  exists p, d. split; [exact H1|]. split.
  - rewrite H3. reflexivity.
  - rewrite H4. reflexivity.
Defined.

(** [createUser] on an empty store writes the sample document. *)
Lemma createUser_jane :
  createUser 1 "Jane Doe!" None = (Some Examples.jane, Some Examples.jane_doc).
Proof. vm_compute. reflexivity. Qed.

End SolvedCases.

(** ** Progression *)

Section Progression.

Import PlayerStats.

Lemma rank_loop_spec (xp : Z) (ranks : list Rank) (i acc : nat) :
  (rank_loop xp ranks i acc = acc /\
   forall j r, ranks !! j = Some r -> xp < threshold r)
  \/ (exists j r, rank_loop xp ranks i acc = (i + j)%nat /\
                  ranks !! j = Some r /\ threshold r <= xp /\
                  forall j' r', (j < j')%nat -> ranks !! j' = Some r' -> xp < threshold r').
Proof.
  revert i acc. induction ranks as [|r rest IH]; intros i acc; cbn [rank_loop].
  - left. split; [reflexivity|]. intros j r H. discriminate H.
  - destruct (IH (S i) (if threshold r <=? xp then i else acc))
      as [[Hk Hall] | (j & r' & Hk & Hj & Hle & Hall)].
    + destruct (Z.leb_spec (threshold r) xp) as [Hr|Hr].
      * right. exists 0%nat, r. rewrite Hk, Nat.add_0_r.
        repeat split; [assumption|]. intros [|j'] r' Hlt H; [lia|]. eauto.
      * left. split; [assumption|]. intros [|j] r' H; [|eauto].
        injection H as <-. assumption.
    + right. exists (S j), r'. rewrite Hk. repeat split; [lia|assumption..|].
      intros [|j'] r'' Hlt H; [lia|]. apply (Hall j'); [lia | exact H].
Qed.

(** The scan returns the highest rank reached, whenever some rank is. *)
Lemma rank_of_highest (ranks : list Rank) (xp : Z) :
  (exists j r, ranks !! j = Some r /\ threshold r <= xp) ->
  highest_rank ranks xp (rank_of ranks xp).
Proof.
  intros (j0 & r0 & Hj0 & Hle0). unfold rank_of, highest_rank.
  destruct (rank_loop_spec xp ranks 0 0) as [[_ Hall] | (j & r & -> & Hj & Hle & Hall)].
  - specialize (Hall _ _ Hj0). lia.
  - split; [exists r; split; assumption | exact Hall].
Qed.

Lemma highest_rank_unique (ranks : list Rank) (xp : Z) (i j : nat) :
  highest_rank ranks xp i -> highest_rank ranks xp j -> i = j.
Proof.
  intros [(ri & Hi & Hri) Ai] [(rj & Hj & Hrj) Aj].
  destruct (Nat.lt_trichotomy i j) as [H | [H | H]]; [|assumption|].
  - specialize (Ai _ _ H Hj). lia.
  - specialize (Aj _ _ H Hi). lia.
Qed.

(** What [addXP] does to the profile in [state] and to the modals: the xp
    grows by the amount, the rank is recomputed from the table, and one
    modal is appended exactly when the rank went up. *)
Lemma addXP_state (now amount : Z) (w : World) (u : User) :
  user (w_state w) = Some u ->
  0 <= u_xp u + amount ->
  exists u',
    user (w_state (addXP now amount w)) = Some u' /\
    u_xp u' = u_xp u + amount /\
    u_rankIndex u' = rank_of RANKS (u_xp u') /\
    highest_rank RANKS (u_xp u') (u_rankIndex u') /\
    w_rankUpModals (addXP now amount w)
      = (if (u_rankIndex u <? u_rankIndex u')%nat
         then w_rankUpModals w ++ [u_rankIndex u']
         else w_rankUpModals w)%list.
Proof.
  intros Hu Hxp. unfold addXP, addXP_with. rewrite Hu.
  destruct (GameDatabase.updateUser _ _ _ _) as [res ls].
  eexists. split; [reflexivity|]. cbn [u_xp u_rankIndex set_xp_rank w_rankUpModals].
  split; [reflexivity|]. split; [reflexivity|]. split; [|reflexivity].
  apply rank_of_highest. exists 0%nat, {| threshold := 0; title := "Rookie" |}.
  split; [reflexivity | cbn; lia].
Qed.

(** When the profile of the logged-in user is in the stored document,
    [addXP] stores the new xp and rank there. *)
Lemma addXP_stored (now amount : Z) (w : World) (u stored : User) (doc : Doc) :
  user (w_state w) = Some u ->
  w_localStorage w = Some doc ->
  d_users doc !! u_id u = Some stored ->
  exists doc' p,
    w_localStorage (addXP now amount w) = Some doc' /\
    d_users doc' !! u_id u = Some p /\
    u_xp p = u_xp u + amount /\
    u_rankIndex p = rank_of RANKS (u_xp u + amount).
Proof.
  intros Hu Hls Hst.
  unfold addXP, addXP_with, GameDatabase.updateUser, GameDatabase.getDB,
    GameDatabase.users_at.
  rewrite Hu, Hls. cbn [u_id set_xp_rank]. rewrite Hst.
  eexists _, _. split; [reflexivity|]. cbn [d_users GameDatabase.set_users].
  rewrite lookup_insert_eq. repeat split.
Qed.

(** The example of the specification: from 0 xp, 100 points promote to rank
    1 with one modal, 50 points leave rank 0 and show none. *)
Lemma addXP_example :
  let w := Game.world0 [] (Some Examples.jane) None (Some Examples.jane_doc) in
  (u_rankIndex <$> user (w_state (addXP 2 100 w))) = Some 1%nat /\
  w_rankUpModals (addXP 2 100 w) = [1%nat] /\
  (u_rankIndex <$> user (w_state (addXP 2 50 w))) = Some 0%nat /\
  w_rankUpModals (addXP 2 50 w) = [].
Proof. cbn zeta. repeat split; reflexivity. Qed.

(** The first login of the sample visit yields a page. *)
Lemma first_login_page :
  Game.handleLogin 1 "Jane" Examples.first_visit = Some Examples.jane_logged_in.
Proof. reflexivity. Qed.

(** C7, at a first login: the store is empty, "Jane" logs in and earns 100
    points. In [state] the profile has 100 xp and rank 1 and one promotion
    is shown, but the stored document holds no profile at all: [login]
    saved the copy it parsed before [createUser] wrote the profile, so
    [updateUser] finds no user and saves nothing. *)
Theorem addXP_after_first_login_not_stored :
  let w := addXP 2 100 Examples.jane_logged_in in
  (u_id <$> user (w_state w)) = Some "jane" /\
  (u_xp <$> user (w_state w)) = Some 100 /\
  (u_rankIndex <$> user (w_state w)) = Some 1%nat /\
  w_rankUpModals w = [1%nat] /\
  exists doc,
    w_localStorage w = Some doc /\
    d_users doc !! "jane" = None /\
    d_users doc = ∅ /\
    d_lastUser doc = Some "jane".
Proof.
  cbn zeta. repeat split; try reflexivity.
  eexists. split; [reflexivity|]. repeat split; vm_compute; reflexivity.
Qed.

End Progression.

(** ** Import of a document *)

Section ImportData.

Import GameDatabaseJson.

(** C9, as the code has it: the import is refused, and the stored item left
    as it was, exactly for a text that does not parse or that parses to
    [null] or a primitive. Every object is accepted whatever its shape and
    replaces the stored item as a whole: all its properties are kept, except
    that [version] is set to the current version and [lastUpdated] to the
    time of the import; in particular a document of the persistence shape
    is stored with its [users], [lastUser], [settings] and [statistics]
    unchanged and still has that shape. An array is stored as it is. *)
Theorem importData_spec (now : Z) (parsed : option json) (item : option json) :
  (fst (importData now parsed item) = false <->
     parsed = None \/ exists data, parsed = Some data /\ is_object data = false) /\
  (fst (importData now parsed item) = false -> snd (importData now parsed item) = item) /\
  (forall props, parsed = Some (JObj props) ->
     exists props',
       importData now parsed item = (true, Some (JObj props')) /\
       props' !! "version" = Some (JNum GameDatabase.VERSION) /\
       props' !! "lastUpdated" = Some (JNum now) /\
       (forall key, key <> "version" -> key <> "lastUpdated" -> props' !! key = props !! key) /\
       (valid_document (JObj props) = true -> valid_document (JObj props') = true)) /\
  (forall items, parsed = Some (JArr items) ->
     importData now parsed item = (true, Some (JArr items))).
Proof.
  repeat match goal with |- _ /\ _ => split end.
  - destruct parsed as [[]|]; cbn; split; intros H; try discriminate H; eauto.
    + destruct H as [H | (d & H & Hd)]; [discriminate H|].
      injection H as <-. discriminate Hd.
    + destruct H as [H | (d & H & Hd)]; [discriminate H|].
      injection H as <-. discriminate Hd.
  - destruct parsed as [[]|]; cbn; intros H; try discriminate H; reflexivity.
  - intros props ->. eexists. split; [reflexivity|].
    split; [now rewrite lookup_insert_ne, lookup_insert_eq|].
    split; [now rewrite lookup_insert_eq|].
    split; [intros key H1 H2; now rewrite !lookup_insert_ne by congruence|].
    unfold valid_document.
    rewrite !(lookup_insert_ne _ "lastUpdated") by discriminate.
    rewrite lookup_insert_eq, !(lookup_insert_ne _ "version") by discriminate.
    rewrite !andb_true_iff. intros [[[[_ H1] H2] H3] H4]. repeat split; assumption.
  - intros items ->. reflexivity.
Qed.

(** On a document, [_save] on its JSON text and [_save] on the document
    write the same item. *)
Lemma save_json_of_doc (now : Z) (d : Doc) (item : option json) :
  _save now (json_of_doc d) item = (true, json_of_doc <$> GameDatabase._save now d).
Proof.
  unfold _save, json_of_doc, GameDatabase._save. cbn [fmap option_fmap option_map].
  f_equal. f_equal. f_equal.
  destruct (d_lastUpdated d); cbn; apply map_eq; intros k;
    rewrite !lookup_insert; repeat case_decide; congruence.
Qed.

(** The JSON text of a document has the persistence shape. *)
Lemma json_of_doc_valid (d : Doc) : valid_document (json_of_doc d) = true.
Proof. unfold json_of_doc. destruct (d_lastUpdated d), (d_lastUser d); reflexivity. Qed.

(** C9 as worded fails: the empty object has none of the five fields, the
    import accepts it, and the well-formed stored document is gone. *)
Lemma importData_accepts_any_object :
  valid_document (JObj ∅) = false /\
  valid_document Examples.stored_json = true /\
  importData 7 (Some (JObj ∅)) (Some Examples.stored_json)
    = (true, Some (JObj (<["lastUpdated" := JNum 7]> (<["version" := JNum 2]> ∅)))) /\
  snd (importData 7 (Some (JObj ∅)) (Some Examples.stored_json))
    <> Some Examples.stored_json.
Proof.
  split; [reflexivity|]. split; [reflexivity|]. split; [reflexivity|].
  intros H.
  apply (f_equal (fun o => match o with
                           | Some (JObj m) => is_plain_object (m !! "users")
                           | _ => false
                           end)) in H.
  vm_compute in H. discriminate H.
Qed.

Lemma importData_spec_witness :
  exists props',
    importData 7 (Some Examples.stored_json) None = (true, Some (JObj props'))
    /\ props' !! "users" = Some (JObj ∅)
    /\ props' !! "lastUpdated" = Some (JNum 7).
Proof.
  destruct (importData_spec 7 (Some Examples.stored_json) None) as (_ & _ & H & _).
  destruct (H _ eq_refl) as (props' & H1 & _ & H3 & H4 & _).
  exists props'. split; [exact H1|]. split; [|exact H3].
  rewrite H4 by discriminate. reflexivity.
Defined.

End ImportData.

(** ** The session *)

Section SessionFacts.

Import Session.

Lemma array_includes_In (array : list string) (item : string) :
  array_includes array item = true <-> In item array.
Proof.
  induction array as [|x rest IH]; simpl; [easy|].
  rewrite orb_true_iff, String.eqb_eq, IH. tauto.
Qed.

Lemma array_includes_not_In (array : list string) (item : string) :
  array_includes array item = false <-> ~ In item array.
Proof.
  rewrite <- array_includes_In. destruct (array_includes array item); split; congruence.
Qed.

(** The filter of [handleSearch] is the set difference. *)
Lemma not_yet_found_In (found items : list string) (x : string) :
  In x (not_yet_found found items) <-> In x items /\ ~ In x found.
Proof.
  unfold not_yet_found. rewrite filter_In, negb_true_iff, array_includes_not_In. tauto.
Qed.

(** Once the new items are added, the same search finds nothing. *)
Lemma not_yet_found_again (found items : list string) :
  not_yet_found (found ++ not_yet_found found items) items = [].
Proof.
  unfold not_yet_found at 1.
  rewrite (filter_ext_in _ (fun _ => false)); [induction items; simpl; auto|].
  intros x Hx. rewrite negb_false_iff, array_includes_In, in_app_iff, not_yet_found_In.
  destruct (array_includes found x) eqn:E.
  - left. now apply array_includes_In.
  - right. split; [assumption | now apply array_includes_not_In].
Qed.

Lemma core_addNote (type : NoteKind) (text : Text) (speaker : option string) (st : State) :
  core (addNote type text speaker st) = core st.
Proof. reflexivity. Qed.

Lemma core_addMessage (text : Text) (st : State) : core (addMessage text st) = core st.
Proof. reflexivity. Qed.

Lemma core_updateActionPoints (st : State) : core (updateActionPoints st) = core st.
Proof. unfold updateActionPoints. now destruct (actionPoints st =? 0). Qed.

Lemma core_getScriptedResponse (suspect : Suspect) (text : string) (st : State) :
  core (snd (getScriptedResponse suspect text st)) = core st.
Proof.
  unfold getScriptedResponse.
  repeat match goal with |- context [if ?b then _ else _] => destruct b end; reflexivity.
Qed.

Lemma core_receiveReply (p : PendingReply) (outcome : OracleOutcome) (st : State) :
  core (receiveReply p outcome st) = core st.
Proof.
  unfold receiveReply. destruct (p_suspect p) as [suspect|]; [|reflexivity].
  destruct (p_viaOracle p); [destruct outcome|];
    try (pose proof (core_getScriptedResponse suspect (p_text p) st) as H;
         destruct (getScriptedResponse suspect (p_text p) st) as [line st']);
    try reflexivity; rewrite !core_addNote; exact H.
Qed.

Lemma core_selectSuspect (suspectId : string) (st : State) :
  core (selectSuspect suspectId st) = core st.
Proof.
  unfold selectSuspect. cbn [currentCase set_selectedSuspectId].
  destruct (currentCase st) as [c|]; [|reflexivity].
  destruct (find_suspect _ _); [|reflexivity].
  now rewrite core_updateActionPoints.
Qed.

Lemma fold_addNote_core (f : string -> Text) (items : list string) (st : State) :
  core (fold_left (fun s item => addNote evidence_note (f item) None s) items st) = core st.
Proof.
  revert st. induction items as [|x items IH]; intros st; [reflexivity|].
  cbn [fold_left]. now rewrite IH.
Qed.

(** [handleSearch] on the core of the state. *)
Lemma core_handleSearch (type : string) (st : State) :
  core (handleSearch type st)
  = if actionPoints st <=? 0 then core st
    else match currentCase st with
         | None => core st
         | Some c =>
             match not_yet_found (evidenceFound st) (search_list type c) with
             | [] => core st
             | added =>
                 (currentCase st, activeCases st, (evidenceFound st ++ added)%list,
                  actionPoints st - 1, labReady st, labProcessing st)
             end
         end.
Proof.
  unfold handleSearch, search_list, not_yet_found.
  destruct (actionPoints st <=? 0); [reflexivity|].
  destruct (currentCase st) as [c|] eqn:Ec; [|reflexivity].
  destruct (String.eqb type "room"), (String.eqb type "body");
    match goal with
    | |- context [List.filter ?f ?l] => destruct (List.filter f l) as [|x added] eqn:E
    end;
    rewrite ?core_addNote, ?core_updateActionPoints, ?fold_addNote_core;
    unfold core; cbn; rewrite ?Ec; reflexivity.
Qed.

Lemma core_handleLab (st : State) :
  core (fst (handleLab st))
  = if (actionPoints st <=? 0) || negb (labReady st) || labProcessing st then core st
    else (currentCase st, activeCases st, evidenceFound st, actionPoints st - 1,
          labReady st, true).
Proof.
  unfold handleLab.
  destruct ((actionPoints st <=? 0) || negb (labReady st) || labProcessing st);
    [reflexivity|].
  cbn [fst]. now rewrite core_addMessage, core_updateActionPoints.
Qed.

Lemma core_labComplete (st : State) :
  core (labComplete st)
  = match currentCase st with
    | None => core st
    | Some c =>
        (currentCase st, activeCases st,
         if array_includes (evidenceFound st) (e_labClue (c_evidence c))
         then evidenceFound st
         else (evidenceFound st ++ [e_labClue (c_evidence c)])%list,
         actionPoints st, false, false)
    end.
Proof.
  unfold labComplete. destruct (currentCase st) as [c|] eqn:Ec; [|reflexivity].
  rewrite core_updateActionPoints, core_addMessage.
  destruct (array_includes _ _); unfold core; cbn; rewrite Ec; reflexivity.
Qed.

Lemma core_handleUserMessage (value : string) (st : State) :
  core (fst (handleUserMessage value st)) = core st
  \/ (0 < actionPoints st /\
      core (fst (handleUserMessage value st))
      = (currentCase st, activeCases st, evidenceFound st, actionPoints st - 1,
         labReady st, labProcessing st)).
Proof.
  unfold handleUserMessage.
  destruct (no_suspect_selected st); [now left|].
  destruct (Z.leb_spec (actionPoints st) 0) as [H|H]; [now left|]. cbn [orb].
  destruct (negb (Js.truthy (Js.trim value))); [now left|]. right. split; [assumption|].
  match goal with
  | |- core (fst (match currentCase ?x with _ => _ end)) = _ =>
      assert (E : core x = (currentCase st, activeCases st, evidenceFound st,
                            actionPoints st - 1, labReady st, labProcessing st))
        by (now rewrite core_updateActionPoints);
      destruct (currentCase x); exact E
  end.
Qed.

Lemma core_startCase (caseId : string) (st : State) :
  core (startCase caseId st)
  = match find_case (activeCases st) caseId with
    | Some c => (Some c, activeCases st, e_initial (c_evidence c), 20, true, false)
    | None => (None, activeCases st, evidenceFound st, 20, labReady st, labProcessing st)
    end.
Proof. unfold startCase. destruct (find_case _ _); reflexivity. Qed.

Lemma core_addXP (now amount : Z) (w : World) :
  core (w_state (PlayerStats.addXP now amount w)) = core (w_state w)
  /\ w_labTimers (PlayerStats.addXP now amount w) = w_labTimers w.
Proof.
  unfold PlayerStats.addXP, PlayerStats.addXP_with.
  destruct (user (w_state w)); [|split; reflexivity].
  destruct (GameDatabase.updateUser _ _ _ _). split; reflexivity.
Qed.

Lemma core_handleAccusation (now : Z) (suspectId motive : string) (w : World) :
  core (w_state (fst (Accusation.handleAccusation now suspectId motive w)))
    = core (w_state w)
  /\ w_labTimers (fst (Accusation.handleAccusation now suspectId motive w))
     = w_labTimers w.
Proof.
  unfold Accusation.handleAccusation.
  destruct (negb _ || negb _); [split; reflexivity|].
  destruct (currentCase (w_state w)); [|split; reflexivity].
  destruct (find_suspect _ _); [|split; reflexivity].
  cbn [fst with_state w_state w_labTimers]. rewrite core_addNote.
  apply core_addXP.
Qed.

End SessionFacts.

(** ** Runs of the session *)

Section Runs.

Import Session Game.

Lemma run_snoc (w : World) (ops : list Op) (op : Op) :
  run w (ops ++ [op]) = step (run w ops) op.
Proof. unfold run. now rewrite fold_left_app. Qed.

(** One step on the core of the state. *)
Lemma step_core (w : World) (op : Op) :
  let st := w_state w in
  let st' := w_state (step w op) in
  match op with
  | StartCase caseId =>
      core st'
      = match find_case (activeCases st) caseId with
        | Some c => (Some c, activeCases st, e_initial (c_evidence c), 20, true, false)
        | None => (None, activeCases st, evidenceFound st, 20, labReady st, labProcessing st)
        end
  | SendMessage _ =>
      core st' = core st
      \/ (0 < actionPoints st /\
          core st' = (currentCase st, activeCases st, evidenceFound st,
                      actionPoints st - 1, labReady st, labProcessing st))
  | Search type =>
      core st'
      = if actionPoints st <=? 0 then core st
        else match currentCase st with
             | None => core st
             | Some c =>
                 match not_yet_found (evidenceFound st) (search_list type c) with
                 | [] => core st
                 | added =>
                     (currentCase st, activeCases st, (evidenceFound st ++ added)%list,
                      actionPoints st - 1, labReady st, labProcessing st)
                 end
             end
  | SendToLab =>
      core st'
      = if (actionPoints st <=? 0) || negb (labReady st) || labProcessing st then core st
        else (currentCase st, activeCases st, evidenceFound st, actionPoints st - 1,
              labReady st, true)
  | LabComplete =>
      core st'
      = match w_labTimers w, currentCase st with
        | S _, Some c =>
            (currentCase st, activeCases st,
             if array_includes (evidenceFound st) (e_labClue (c_evidence c))
             then evidenceFound st
             else (evidenceFound st ++ [e_labClue (c_evidence c)])%list,
             actionPoints st, false, false)
        | _, _ => core st
        end
  | SelectSuspect _ | ReplyArrives _ _ | Accuse _ _ _ => core st' = core st
  end.
Proof.
  cbn zeta. destruct op; cbn [step on_state with_state w_state].
  - apply core_startCase.
  - apply core_selectSuspect.
  - pose proof (core_handleUserMessage value (w_state w)) as H.
    destruct (handleUserMessage value (w_state w)). exact H.
  - destruct (w_pending w !! i); [apply core_receiveReply | reflexivity].
  - apply core_handleSearch.
  - pose proof (core_handleLab (w_state w)) as H.
    destruct (handleLab (w_state w)). exact H.
  - destruct (w_labTimers w); [now destruct (currentCase (w_state w))|].
    cbn [w_state]. apply core_labComplete.
  - apply core_handleAccusation.
Qed.

Lemma step_actionPoints (w : World) (op : Op) :
  0 <= actionPoints (w_state w) -> 0 <= actionPoints (w_state (step w op)).
Proof.
  intros H. pose proof (step_core w op) as C. cbn zeta in C. unfold core in C.
  revert C. generalize (w_state (step w op)) as st'. intros st' C.
  destruct op;
    repeat match type of C with
           | _ \/ _ => destruct C as [C | [? C]]
           | context [if ?b then _ else _] => destruct b eqn:?
           | context [match ?x with _ => _ end] => destruct x eqn:?
           end;
    injection C as _ _ _ -> _ _; lia.
Qed.

Lemma run_actionPoints (w : World) (ops : list Op) :
  0 <= actionPoints (w_state w) -> 0 <= actionPoints (w_state (run w ops)).
Proof.
  revert w. induction ops as [|op ops IH]; intros w H; [exact H|].
  cbn [run fold_left]. apply IH, step_actionPoints, H.
Qed.

(** At zero action points the three investigative handlers return at their
    guard. *)
Lemma step_exhausted (w : World) :
  actionPoints (w_state w) = 0 ->
  (forall value, step w (SendMessage value) = w) /\
  (forall type, step w (Search type) = w) /\
  step w SendToLab = w.
Proof.
  intros H. destruct w as [st ls timers pending modals]. cbn [w_state] in H.
  repeat split; intros; cbn [step]; unfold on_state, with_state;
    cbn [w_state w_localStorage w_labTimers w_pending w_rankUpModals];
    unfold handleUserMessage, handleSearch, handleLab; rewrite H; cbn [Z.leb Z.compare orb];
    rewrite ?orb_true_r, ?app_nil_r; reflexivity.
Qed.

(** C3: along every run from the loaded page the action points are never
    negative; when they are zero, sending a message, searching and sending
    to the lab leave the whole page as it is, while an accusation on an open
    case is judged as at any other time, awards its xp to the logged-in
    player and leaves the points at zero. *)
Theorem actionPoints_never_negative (cases : list Case) (u : option User)
    (key : option string) (ls : option Doc) (ops : list Op) :
  let w := run (world0 cases u key ls) ops in
  0 <= actionPoints (w_state w) /\
  (actionPoints (w_state w) = 0 ->
     (forall value, step w (SendMessage value) = w) /\
     (forall type, step w (Search type) = w) /\
     step w SendToLab = w /\
     (forall now suspectId motive caseData killer,
        Js.truthy suspectId = true ->
        Js.truthy (Js.toLowerCase (Js.trim motive)) = true ->
        currentCase (w_state w) = Some caseData ->
        find_suspect (c_suspects caseData) (c_killerId caseData) = Some killer ->
        let v := Accusation.judge caseData suspectId (Js.toLowerCase (Js.trim motive)) in
        let w' := fst (Accusation.handleAccusation now suspectId motive w) in
        snd (Accusation.handleAccusation now suspectId motive w) = Resolved v /\
        actionPoints (w_state w') = 0 /\
        (u_xp <$> user (w_state w'))
          = ((fun p => u_xp p + (if Accusation.success v then 100 else 10))
               <$> user (w_state w)))).
Proof.
  cbn zeta. split; [apply run_actionPoints; cbn; lia|].
  intros H0. destruct (step_exhausted _ H0) as (H1 & H2 & H3).
  split; [exact H1|]. split; [exact H2|]. split; [exact H3|].
  intros now suspectId motive caseData killer Hs Hm Hc Hk.
  split; [now apply (handleAccusation_resolved now suspectId motive _ caseData killer)|].
  split.
  - pose proof (core_handleAccusation now suspectId motive
                  (run (world0 cases u key ls) ops)) as [C _].
    unfold core in C. injection C as _ _ _ -> _ _. exact H0.
  - unfold Accusation.handleAccusation. rewrite Hs, Hm, Hc, Hk.
    cbn [negb orb fst with_state w_state].
    unfold addNote, set_investigationNotes. cbn [user].
    unfold PlayerStats.addXP, PlayerStats.addXP_with.
    destruct (user (w_state (run (world0 cases u key ls) ops))) as [p|] eqn:Eu.
    + destruct (GameDatabase.updateUser _ _ _ _). reflexivity.
    + rewrite Eu. reflexivity.
Qed.

Lemma actionPoints_never_negative_witness :
  actionPoints (w_state Examples.exhausted) = 0 /\
  step Examples.exhausted (Search "body") = Examples.exhausted /\
  snd (Accusation.handleAccusation 9 "suspect_2" " Money and DEBT " Examples.exhausted)
  = Resolved {| isCorrectSuspect := true; keywordHits := 2;
                requiredHits := 2; isCorrectMotive := true |}.
Proof.
  unfold Examples.exhausted.
  pose proof (actionPoints_never_negative [Examples.manor] (Some Examples.jane) None
                (Some Examples.jane_doc) Examples.exhaust) as H.
  cbv zeta in H. destruct H as [_ H].
  assert (H0 : actionPoints
                 (w_state (run (world0 [Examples.manor] (Some Examples.jane) None
                                  (Some Examples.jane_doc)) Examples.exhaust)) = 0)
    by (vm_compute; reflexivity).
  assert (Hc : currentCase
                 (w_state (run (world0 [Examples.manor] (Some Examples.jane) None
                                  (Some Examples.jane_doc)) Examples.exhaust))
               = Some Examples.manor)
    by (vm_compute; reflexivity).
  destruct (H H0) as (_ & Hsearch & _ & Haccuse).
  split; [exact H0|]. split; [exact (Hsearch "body")|].
  exact (proj1 (Haccuse 9 "suspect_2" " Money and DEBT " Examples.manor Examples.niece
                  eq_refl eq_refl Hc eq_refl)).
Defined.

End Runs.

(** ** Searches *)

Section Searches.

Import Session.

Lemma notes_fold_addNote (f : string -> Text) (items : list string) (st : State) :
  investigationNotes
    (fold_left (fun s item => addNote evidence_note (f item) None s) items st)
  = (investigationNotes st
     ++ map (fun item => {| n_type := evidence_note; n_text := f item; n_speaker := None |})
            items)%list.
Proof.
  revert st. induction items as [|x items IH]; intros st; cbn [fold_left map].
  - now rewrite app_nil_r.
  - rewrite IH. cbn [addNote set_investigationNotes investigationNotes].
    now rewrite <- app_assoc.
Qed.

Lemma notes_updateActionPoints (st : State) :
  exists tail,
    investigationNotes (updateActionPoints st) = (investigationNotes st ++ tail)%list.
Proof.
  unfold updateActionPoints. destruct (actionPoints st =? 0).
  - eexists. reflexivity.
  - exists []. now rewrite app_nil_r.
Qed.

(** C4: with points left and a case open, a body or room search takes the
    items of its list that are not yet found. When there are none it files
    the "no new evidence" note and changes nothing else; otherwise it takes
    one point, appends exactly those items to the evidence and files one
    note for each. Repeating the search right away costs nothing and adds
    nothing. *)
Theorem handleSearch_spec (type : string) (st : State) (c : Case) :
  0 < actionPoints st ->
  currentCase st = Some c ->
  type = "body" \/ type = "room" ->
  let items :=
    if String.eqb type "body" then e_bodySearch (c_evidence c)
    else e_roomSearch (c_evidence c) in
  let label := if String.eqb type "body" then BodySearchLabel else RoomSearchLabel in
  let added := not_yet_found (evidenceFound st) items in
  let st' := handleSearch type st in
  (forall x, In x added <-> In x items /\ ~ In x (evidenceFound st)) /\
  (added = [] ->
     st' = addNote evidence_note TNoNewEvidence None st /\
     actionPoints st' = actionPoints st /\
     evidenceFound st' = evidenceFound st) /\
  (added <> [] ->
     actionPoints st' = actionPoints st - 1 /\
     evidenceFound st' = (evidenceFound st ++ added)%list /\
     exists tail,
       investigationNotes st'
       = (investigationNotes st
          ++ map (fun item => {| n_type := evidence_note;
                                 n_text := TEvidenceLogged label item;
                                 n_speaker := None |}) added
          ++ tail)%list) /\
  actionPoints (handleSearch type st') = actionPoints st' /\
  evidenceFound (handleSearch type st') = evidenceFound st'.
Proof.
  intros Hap Hc Htype. cbn zeta.
  assert (Hlist : search_list type c
                  = if String.eqb type "body" then e_bodySearch (c_evidence c)
                    else e_roomSearch (c_evidence c))
    by (destruct Htype as [-> | ->]; reflexivity).
  rewrite <- Hlist.
  assert (Hcore := core_handleSearch type st).
  destruct (Z.leb_spec (actionPoints st) 0) as [?|_]; [lia|]. rewrite Hc in Hcore.
  split; [apply not_yet_found_In|].
  split; [|split].
  - intros Hnone. rewrite Hnone in Hcore. unfold core in Hcore.
    injection Hcore as _ _ Hf Ha _ _. split; [|split; assumption].
    unfold handleSearch. destruct (Z.leb_spec (actionPoints st) 0) as [?|_]; [lia|].
    rewrite Hc. unfold not_yet_found, search_list in Hnone.
    destruct Htype as [-> | ->]; cbn [String.eqb Ascii.eqb Bool.eqb andb] in *;
      now rewrite Hnone.
  - intros Hsome.
    destruct (not_yet_found (evidenceFound st) (search_list type c)) as [|x added] eqn:E;
      [congruence|].
    unfold core in Hcore. injection Hcore as _ _ Hf Ha _ _.
    split; [exact Ha|]. split; [exact Hf|].
    unfold handleSearch. destruct (Z.leb_spec (actionPoints st) 0) as [?|_]; [lia|].
    rewrite Hc. unfold not_yet_found, search_list in E.
    destruct Htype as [-> | ->]; cbn [String.eqb Ascii.eqb Bool.eqb andb] in *;
      rewrite E;
      match goal with
      | |- context [updateActionPoints ?s] =>
          destruct (notes_updateActionPoints s) as [tail Ht]; exists tail; rewrite Ht
      end;
      rewrite notes_fold_addNote; cbn [investigationNotes set_evidenceFound set_actionPoints];
      now rewrite <- app_assoc.
  - assert (Hcore' := core_handleSearch type (handleSearch type st)).
    assert (E1 : currentCase (handleSearch type st) = Some c
                 /\ (evidenceFound (handleSearch type st) = evidenceFound st
                      /\ not_yet_found (evidenceFound st) (search_list type c) = []
                     \/ evidenceFound (handleSearch type st)
                        = (evidenceFound st
                           ++ not_yet_found (evidenceFound st) (search_list type c))%list)).
    { destruct (not_yet_found (evidenceFound st) (search_list type c)) eqn:E;
        unfold core in Hcore; injection Hcore as -> _ -> _ _ _; auto. }
    destruct E1 as [Ec Ef]. rewrite Ec in Hcore'.
    assert (En : not_yet_found (evidenceFound (handleSearch type st)) (search_list type c) = []).
    { destruct Ef as [[-> ?] | ->]; [assumption | apply not_yet_found_again]. }
    rewrite En in Hcore'.
    destruct (actionPoints (handleSearch type st) <=? 0);
      unfold core in Hcore'; injection Hcore' as _ _ -> -> _ _; split; reflexivity.
Qed.

Lemma handleSearch_spec_witness :
  let st := w_state (Examples.opened Examples.manor) in
  actionPoints (handleSearch "body" st) = 19 /\
  evidenceFound (handleSearch "body" st)
    = ["Broken window"; "Muddy footprints"; "Locket"; "Unsent letter"] /\
  actionPoints (handleSearch "body" (handleSearch "body" st)) = 19.
Proof.
  cbn zeta.
  destruct (handleSearch_spec "body" (w_state (Examples.opened Examples.manor))
              Examples.manor ltac:(reflexivity) eq_refl (or_introl eq_refl))
    as (_ & _ & Hadd & Hrep & _).
  destruct Hadd as (Ha & Hf & _); [discriminate|].
  split; [exact Ha|]. split; [exact Hf|]. rewrite Hrep. exact Ha.
Defined.

End Searches.

(** ** The evidence list *)

Section EvidenceList.

Import Session Game.

(** Any step but opening a case extends the evidence at its end. *)
Lemma step_evidence_extends (w : World) (op : Op) :
  is_start op = false ->
  exists extra,
    evidenceFound (w_state (step w op)) = (evidenceFound (w_state w) ++ extra)%list.
Proof.
  intros Hop. pose proof (step_core w op) as C. cbn zeta in C. unfold core in C.
  revert C. generalize (w_state (step w op)) as st'. intros st' C.
  destruct op; try discriminate Hop;
    repeat match type of C with
           | _ \/ _ => destruct C as [C | [? C]]
           | context [if ?b then _ else _] => destruct b eqn:?
           | context [match ?x with _ => _ end] => destruct x eqn:?
           end;
    injection C as _ _ -> _ _ _;
    solve [ exists []; now rewrite app_nil_r | eexists; reflexivity ].
Qed.

Lemma find_case_In (cases : list Case) (caseId : string) (c : Case) :
  find_case cases caseId = Some c -> In c cases.
Proof. intros H. now apply find_some in H. Qed.

Lemma search_list_NoDup (type : string) (c : Case) :
  duplicate_free c -> List.NoDup (search_list type c).
Proof.
  intros (_ & Hb & Hr). unfold search_list.
  destruct (String.eqb type "room"); [exact Hr|].
  destruct (String.eqb type "body"); [exact Hb | constructor].
Qed.

Lemma step_tidy (cases : list Case) (w : World) (op : Op) :
  Forall duplicate_free cases -> tidy cases w -> tidy cases (step w op).
Proof.
  intros Hcases (Ha & Hc & Hn). rewrite Forall_forall in Hcases.
  pose proof (step_core w op) as C. cbn zeta in C. unfold core in C.
  unfold tidy. revert C. generalize (w_state (step w op)) as st'. intros st' C.
  destruct op;
    repeat match type of C with
           | _ \/ _ => destruct C as [C | [? C]]
           | context [if ?b then _ else _] => destruct b eqn:?
           | context [match ?x with _ => _ end] => destruct x eqn:?
           end;
    injection C as -> -> -> _ _ _;
    (split; [assumption|]); (split; [try assumption|]);
    try assumption; try discriminate.
  - intros c' H. injection H as <-.
    match goal with H : find_case _ _ = Some _ |- _ =>
      apply find_case_In in H; rewrite Ha in H; try exact H end.
  - apply Hcases, list_elem_of_In.
    match goal with H : find_case _ _ = Some _ |- _ =>
      apply find_case_In in H; rewrite Ha in H; try exact H end.
  - match goal with H : not_yet_found _ _ = _ |- _ => rewrite <- H end.
    apply List.NoDup_app; [assumption | | ].
    + apply List.NoDup_filter, search_list_NoDup, Hcases, list_elem_of_In, Hc.
      reflexivity.
    + intros a Hin Hadd. apply not_yet_found_In in Hadd. tauto.
  - apply List.NoDup_app; [assumption | repeat constructor; auto | ].
    intros a Hin [<- | []].
    match goal with H : array_includes _ _ = false |- _ =>
      apply array_includes_not_In in H; contradiction end.
Qed.

Lemma run_tidy (cases : list Case) (w : World) (ops : list Op) :
  Forall duplicate_free cases -> tidy cases w -> tidy cases (run w ops).
Proof.
  intros Hcases. revert w. induction ops as [|op ops IH]; intros w H; [exact H|].
  cbn [run fold_left]. apply IH, step_tidy; assumption.
Qed.

Lemma step_activeCases (w : World) (op : Op) :
  activeCases (w_state (step w op)) = activeCases (w_state w).
Proof.
  pose proof (step_core w op) as C. cbn zeta in C. unfold core in C.
  revert C. generalize (w_state (step w op)) as st'. intros st' C.
  destruct op;
    repeat match type of C with
           | _ \/ _ => destruct C as [C | [? C]]
           | context [if ?b then _ else _] => destruct b eqn:?
           | context [match ?x with _ => _ end] => destruct x eqn:?
           end;
    injection C as _ -> _ _ _ _; reflexivity.
Qed.

Lemma run_activeCases (w : World) (ops : list Op) :
  activeCases (w_state (run w ops)) = activeCases (w_state w).
Proof.
  revert w. induction ops as [|op ops IH]; intros w; [reflexivity|].
  cbn [run fold_left]. fold (run (step w op) ops). now rewrite IH, step_activeCases.
Qed.

(** C2, as the code has it: in every session, every operation other than
    opening a case extends the evidence list at its end, so nothing found is
    lost within a case, and opening a case replaces the list by the initial
    list of that case; when no list of a loaded case names a clue twice, the
    evidence list has no duplicates at any point of any run. *)
Theorem evidenceFound_grows (cases : list Case) (u : option User)
    (key : option string) (ls : option Doc) (ops : list Op) :
  let w := run (world0 cases u key ls) ops in
  (forall op, is_start op = false ->
     exists extra,
       evidenceFound (w_state (step w op)) = (evidenceFound (w_state w) ++ extra)%list) /\
  (forall caseId c, find_case cases caseId = Some c ->
     evidenceFound (w_state (step w (StartCase caseId))) = e_initial (c_evidence c)) /\
  (Forall duplicate_free cases -> List.NoDup (evidenceFound (w_state w))).
Proof.
  cbn zeta. split; [intros op; apply step_evidence_extends|]. split.
  - intros caseId c Hfind.
    pose proof (step_core (run (world0 cases u key ls) ops) (StartCase caseId)) as C.
    cbn zeta in C. rewrite run_activeCases in C. cbn [world0 w_state activeCases] in C.
    rewrite Hfind in C. unfold core in C.
    injection C as _ _ E _ _ _. exact E.
  - intros Hcases.
    assert (T : tidy cases (run (world0 cases u key ls) ops)).
    { apply run_tidy; [assumption|]. repeat split; [discriminate | constructor]. }
    apply T.
Qed.

(** C2 as worded fails twice over: a case whose initial list names a clue
    twice seeds the evidence with a duplicate, and opening a second case
    drops what the first one had found. *)
Lemma evidenceFound_duplicates_and_reset :
  evidenceFound (w_state (Examples.opened Examples.alley))
    = ["Shell casing"; "Shell casing"] /\
  ~ List.NoDup (evidenceFound (w_state (Examples.opened Examples.alley))) /\
  In "Locket"
     (evidenceFound
        (w_state (run (world0 [Examples.manor; Examples.alley] None None None)
                      [StartCase "case_1"; Search "body"]))) /\
  ~ In "Locket"
       (evidenceFound
          (w_state (run (world0 [Examples.manor; Examples.alley] None None None)
                        Examples.two_cases))).
Proof.
  split; [reflexivity|]. split; [|split].
  - intros H. change (List.NoDup ["Shell casing"; "Shell casing"]) in H.
    inversion H as [|x l Hin _]. apply Hin. now left.
  - vm_compute. tauto.
  - vm_compute. intros [H | [H | []]]; discriminate H.
Qed.

Lemma evidenceFound_grows_witness :
  List.NoDup (evidenceFound
                (w_state (run (world0 [Examples.manor] None None None)
                              [StartCase "case_1"; Search "body"; Search "body"]))).
Proof.
  assert (Hcases : Forall duplicate_free [Examples.manor]).
  { constructor; [|constructor].
    repeat split; repeat constructor; cbn; intuition discriminate. }
  exact (proj2 (proj2 (evidenceFound_grows [Examples.manor] None None None
                         [StartCase "case_1"; Search "body"; Search "body"])) Hcases).
Defined.

End EvidenceList.

(** ** The lab *)

Section Lab.

Import Session Game.

(** The ways a step other than opening a case acts on the evidence and on
    [labReady] while a case is open. *)
Lemma step_lab_cases (w : World) (op : Op) (c : Case) :
  is_start op = false ->
  currentCase (w_state w) = Some c ->
  let st := w_state w in
  let st' := w_state (step w op) in
  let clue := e_labClue (c_evidence c) in
  currentCase st' = Some c /\
  ((evidenceFound st' = evidenceFound st /\ labReady st' = labReady st /\
    lab_gain w op = 0%nat)
   \/ (exists type,
         evidenceFound st'
         = (evidenceFound st
            ++ not_yet_found (evidenceFound st) (search_list type c))%list /\
         labReady st' = labReady st /\ lab_gain w op = 0%nat)
   \/ (In clue (evidenceFound st) /\ evidenceFound st' = evidenceFound st /\
       labReady st' = false /\ lab_gain w op = 0%nat)
   \/ (~ In clue (evidenceFound st) /\
       evidenceFound st' = (evidenceFound st ++ [clue])%list /\
       labReady st' = false /\ lab_gain w op = 1%nat)).
Proof.
  intros Hop Hc. cbn zeta.
  pose proof (step_core w op) as C. cbn zeta in C. unfold core in C.
  assert (G : forall found',
             evidenceFound (w_state (step w op)) = found' ->
             lab_gain w op
             = match op with
               | LabComplete =>
                   if (length (evidenceFound (w_state w)) <? length found')%nat
                   then 1%nat else 0%nat
               | _ => 0%nat
               end).
  { intros found' <-. reflexivity. }
  revert C G. generalize (lab_gain w op) as gain.
  generalize (w_state (step w op)) as st'. intros st' gain C G.
  rewrite Hc in C.
  destruct op; try discriminate Hop;
    repeat match type of C with
           | _ \/ _ => destruct C as [C | [? C]]
           | context [if ?b then _ else _] => destruct b eqn:?
           | context [match ?x with _ => _ end] => destruct x eqn:?
           end;
    injection C as Ec _ Ef _ Er _; specialize (G _ Ef); cbn iota in G;
    (split; [congruence|]).
  all: rewrite ?Nat.ltb_irrefl in G.
  all: try (left; repeat split; congruence).
  - right. left. exists type.
    match goal with H : not_yet_found ?a ?b = ?l |- _ => rewrite H end. auto.
  - right. right. left.
    match goal with H : array_includes _ _ = true |- _ => apply array_includes_In in H end.
    auto.
  - right. right. right.
    match goal with H : array_includes _ _ = false |- _ =>
      apply array_includes_not_In in H end.
    rewrite length_app, Nat.add_1_r in G.
    rewrite (proj2 (Nat.ltb_lt _ _) (Nat.lt_succ_diag_r _)) in G. auto.
Qed.

Lemma step_no_case (w : World) (op : Op) :
  is_start op = false ->
  currentCase (w_state w) = None ->
  currentCase (w_state (step w op)) = None /\ lab_gain w op = 0%nat.
Proof.
  intros Hop Hc.
  pose proof (step_core w op) as C. cbn zeta in C. unfold core in C.
  assert (G : forall found',
             evidenceFound (w_state (step w op)) = found' ->
             lab_gain w op
             = match op with
               | LabComplete =>
                   if (length (evidenceFound (w_state w)) <? length found')%nat
                   then 1%nat else 0%nat
               | _ => 0%nat
               end).
  { intros found' <-. reflexivity. }
  revert C G. generalize (lab_gain w op) as gain.
  generalize (w_state (step w op)) as st'. intros st' gain C G.
  rewrite Hc in C.
  destruct op; try discriminate Hop;
    repeat match type of C with
           | _ \/ _ => destruct C as [C | [? C]]
           | context [if ?b then _ else _] => destruct b eqn:?
           | context [match ?x with _ => _ end] => destruct x eqn:?
           end;
    injection C as Ec _ Ef _ _ _; specialize (G _ Ef); cbn iota in G;
    rewrite ?Nat.ltb_irrefl in G; split; congruence.
Qed.

Lemma no_start_cons (op : Op) (ops : list Op) :
  no_start (op :: ops) = true -> is_start op = false /\ no_start ops = true.
Proof.
  unfold no_start. cbn [forallb]. rewrite andb_true_iff, negb_true_iff. tauto.
Qed.

Lemma lab_additions_no_case (ops : list Op) (w : World) :
  no_start ops = true -> currentCase (w_state w) = None -> lab_additions w ops = 0%nat.
Proof.
  revert w. induction ops as [|op ops IH]; intros w Hops Hc; [reflexivity|].
  apply no_start_cons in Hops as [Hop Hops].
  destruct (step_no_case w op Hop Hc) as [Hc' Hg].
  cbn [lab_additions]. now rewrite Hg, IH.
Qed.

(** Once the clue is among the evidence, no lab callback adds anything. *)
Lemma lab_additions_found (ops : list Op) (w : World) (c : Case) :
  no_start ops = true ->
  currentCase (w_state w) = Some c ->
  In (e_labClue (c_evidence c)) (evidenceFound (w_state w)) ->
  lab_additions w ops = 0%nat.
Proof.
  revert w. induction ops as [|op ops IH]; intros w Hops Hc Hin; [reflexivity|].
  apply no_start_cons in Hops as [Hop Hops].
  destruct (step_lab_cases w op c Hop Hc) as [Hc' H]. cbn zeta in H.
  cbn [lab_additions].
  destruct H as [(Ef & _ & Hg) | [(type & Ef & _ & Hg) | [(_ & Ef & _ & Hg) | (Hn & _)]]];
    [| | | contradiction];
    rewrite Hg; apply IH; try assumption; rewrite Ef; try assumption.
  apply in_or_app. now left.
Qed.

Lemma lab_additions_le_1 (ops : list Op) (w : World) :
  no_start ops = true -> (lab_additions w ops <= 1)%nat.
Proof.
  revert w. induction ops as [|op ops IH]; intros w Hops; [cbn; lia|].
  destruct (currentCase (w_state w)) as [c|] eqn:Hc;
    [|rewrite lab_additions_no_case by assumption; lia].
  apply no_start_cons in Hops as [Hop Hops].
  destruct (step_lab_cases w op c Hop Hc) as [Hc' H]. cbn zeta in H.
  cbn [lab_additions]. specialize (IH (step w op) Hops).
  destruct H as [(_ & _ & Hg) | [(type & _ & _ & Hg) | [(_ & _ & _ & Hg) | (_ & Ef & _ & Hg)]]];
    rewrite Hg; try lia.
  rewrite (lab_additions_found ops (step w op) c); [lia | assumption | assumption |].
  rewrite Ef. apply in_or_app. right. now left.
Qed.

Lemma not_yet_found_clue (type : string) (c : Case) (found : list string) :
  ~ In (e_labClue (c_evidence c)) (e_bodySearch (c_evidence c)) ->
  ~ In (e_labClue (c_evidence c)) (e_roomSearch (c_evidence c)) ->
  ~ In (e_labClue (c_evidence c)) (not_yet_found found (search_list type c)).
Proof.
  intros Hb Hr H. apply not_yet_found_In in H as [H _]. unfold search_list in H.
  destruct (String.eqb type "room"); [contradiction|].
  destruct (String.eqb type "body"); [contradiction | exact H].
Qed.

(** After the clue was added, its count stays at one. *)
Lemma lab_after_added (ops : list Op) (w : World) (c : Case) :
  no_start ops = true ->
  currentCase (w_state w) = Some c ->
  ~ In (e_labClue (c_evidence c)) (e_bodySearch (c_evidence c)) ->
  ~ In (e_labClue (c_evidence c)) (e_roomSearch (c_evidence c)) ->
  count_occ string_dec (evidenceFound (w_state w)) (e_labClue (c_evidence c)) = 1%nat ->
  lab_additions w ops = 0%nat /\
  count_occ string_dec (evidenceFound (w_state (run w ops))) (e_labClue (c_evidence c))
  = 1%nat.
Proof.
  intros Hops Hc Hb Hr. revert w Hops Hc.
  induction ops as [|op ops IH]; intros w Hops Hc Hcount; [split; [reflexivity | exact Hcount]|].
  apply no_start_cons in Hops as [Hop Hops].
  assert (Hin : In (e_labClue (c_evidence c)) (evidenceFound (w_state w))).
  { apply (count_occ_In string_dec). lia. }
  destruct (step_lab_cases w op c Hop Hc) as [Hc' H]. cbn zeta in H.
  cbn [lab_additions run fold_left].
  assert (Hcount' : count_occ string_dec (evidenceFound (w_state (step w op)))
                      (e_labClue (c_evidence c)) = 1%nat
                    /\ lab_gain w op = 0%nat).
  { destruct H as [(Ef & _ & Hg) | [(type & Ef & _ & Hg) | [(_ & Ef & _ & Hg) | (Hn & _)]]];
      [| | | contradiction]; rewrite Ef; split; try assumption.
    rewrite count_occ_app, Hcount.
    rewrite (proj1 (count_occ_not_In string_dec _ _) (not_yet_found_clue type c _ Hb Hr)).
    reflexivity. }
  destruct Hcount' as [Hcount' Hg]. rewrite Hg.
  apply (IH (step w op)); assumption.
Qed.

(** While the lab is ready and the clue not found, the run either stays so
    or the lab completes and adds the clue. *)
Lemma lab_exactly_once (ops : list Op) (w : World) (c : Case) :
  no_start ops = true ->
  currentCase (w_state w) = Some c ->
  ~ In (e_labClue (c_evidence c)) (e_bodySearch (c_evidence c)) ->
  ~ In (e_labClue (c_evidence c)) (e_roomSearch (c_evidence c)) ->
  labReady (w_state w) = true ->
  ~ In (e_labClue (c_evidence c)) (evidenceFound (w_state w)) ->
  labReady (w_state (run w ops)) = false ->
  lab_additions w ops = 1%nat /\
  count_occ string_dec (evidenceFound (w_state (run w ops))) (e_labClue (c_evidence c))
  = 1%nat.
Proof.
  intros Hops Hc Hb Hr. revert w Hops Hc.
  induction ops as [|op ops IH]; intros w Hops Hc Hready Hnot Hend;
    [cbn [run fold_left] in Hend; congruence|].
  apply no_start_cons in Hops as [Hop Hops].
  destruct (step_lab_cases w op c Hop Hc) as [Hc' H]. cbn zeta in H.
  cbn [lab_additions run fold_left] in *.
  destruct H as [(Ef & Er & Hg) | [(type & Ef & Er & Hg) | [(Hin & _) | (_ & Ef & _ & Hg)]]];
    [| | contradiction |]; rewrite Hg.
  - apply (IH (step w op)); try assumption; [congruence | now rewrite Ef].
  - apply (IH (step w op)); try assumption; [congruence|].
    rewrite Ef. intros Hin. apply in_app_or in Hin as [Hin | Hin]; [contradiction|].
    exact (not_yet_found_clue type c _ Hb Hr Hin).
  - destruct (lab_after_added ops (step w op) c Hops Hc' Hb Hr) as [Ha Hcount].
    + rewrite Ef, count_occ_app.
      rewrite (proj1 (count_occ_not_In string_dec _ _) Hnot).
      cbn. now destruct (string_dec _ _).
    + rewrite Ha. split; [reflexivity | exact Hcount].
Qed.

(** C5: the call of [handleLab] that finds points left, the lab ready and
    not processing takes exactly one point, sets [labProcessing] and
    schedules the callback; a call made while the lab is processing, or once
    [labReady] is false, changes nothing at all; the callback clears
    [labProcessing], sets [labReady] to false and leaves the clue in the
    evidence, adding it only if it was not there. Within a case the
    callbacks add to the evidence at most once however the calls and
    callbacks are interleaved with the other actions, and exactly once, the
    clue then occurring once, when the clue was not found before, the
    searches cannot reveal it and the lab has completed. *)
Theorem handleLab_once (w : World) :
  let st := w_state w in
  (0 < actionPoints st -> labReady st = true -> labProcessing st = false ->
     let w' := step w SendToLab in
     actionPoints (w_state w') = actionPoints st - 1 /\
     labProcessing (w_state w') = true /\
     labReady (w_state w') = true /\
     evidenceFound (w_state w') = evidenceFound st /\
     w_labTimers w' = S (w_labTimers w)) /\
  (labProcessing st = true \/ labReady st = false -> step w SendToLab = w) /\
  (forall c n, currentCase st = Some c -> w_labTimers w = S n ->
     let w' := step w LabComplete in
     let clue := e_labClue (c_evidence c) in
     labProcessing (w_state w') = false /\
     labReady (w_state w') = false /\
     actionPoints (w_state w') = actionPoints st /\
     w_labTimers w' = n /\
     In clue (evidenceFound (w_state w')) /\
     evidenceFound (w_state w')
     = if array_includes (evidenceFound st) clue then evidenceFound st
       else (evidenceFound st ++ [clue])%list) /\
  (forall ops, no_start ops = true -> (lab_additions w ops <= 1)%nat) /\
  (forall c ops,
     no_start ops = true ->
     currentCase st = Some c ->
     ~ In (e_labClue (c_evidence c)) (e_bodySearch (c_evidence c)) ->
     ~ In (e_labClue (c_evidence c)) (e_roomSearch (c_evidence c)) ->
     labReady st = true ->
     ~ In (e_labClue (c_evidence c)) (evidenceFound st) ->
     labReady (w_state (run w ops)) = false ->
     lab_additions w ops = 1%nat /\
     count_occ string_dec (evidenceFound (w_state (run w ops))) (e_labClue (c_evidence c))
     = 1%nat).
Proof.
  cbn zeta. repeat match goal with |- _ /\ _ => split end.
  - intros Hap Hr Hp.
    pose proof (step_core w SendToLab) as C. cbn zeta in C. unfold core in C.
    assert (T : w_labTimers (step w SendToLab) = S (w_labTimers w)).
    { cbn [step]. unfold handleLab. rewrite Hr, Hp.
      destruct (Z.leb_spec (actionPoints (w_state w)) 0); [lia | reflexivity]. }
    revert C T. generalize (step w SendToLab) as w'. intros w' C T.
    rewrite Hr, Hp in C.
    destruct (Z.leb_spec (actionPoints (w_state w)) 0); [lia|].
    injection C as _ _ -> -> -> ->. auto.
  - intros H. destruct w as [st ls timers pending modals].
    cbn [step w_state w_labTimers w_localStorage w_pending w_rankUpModals] in *.
    unfold handleLab.
    destruct H as [-> | ->]; rewrite ?orb_true_r; reflexivity.
  - intros c n Hc Ht.
    pose proof (step_core w LabComplete) as C. cbn zeta in C. unfold core in C.
    assert (T : w_labTimers (step w LabComplete) = n)
      by (cbn [step]; now rewrite Ht).
    revert C T. generalize (step w LabComplete) as w'. intros w' C T.
    rewrite Ht, Hc in C. injection C as _ _ Ef -> -> ->.
    repeat split; try assumption.
    rewrite Ef. destruct (array_includes _ _) eqn:E.
    + now apply array_includes_In.
    + apply in_or_app. right. now left.
  - intros ops. apply lab_additions_le_1.
  - intros c ops. apply lab_exactly_once.
Qed.

Lemma handleLab_once_witness :
  let w := Examples.opened Examples.manor in
  actionPoints (w_state (step w SendToLab)) = 19 /\
  lab_additions w Examples.lab_run = 1%nat /\
  count_occ string_dec (evidenceFound (w_state (run w Examples.lab_run)))
    "Fingerprint match" = 1%nat.
Proof.
  cbn zeta.
  destruct (handleLab_once (Examples.opened Examples.manor)) as (Ha & _ & _ & _ & He).
  cbv zeta in Ha, He.
  destruct Ha as (Ha & _); [reflexivity | reflexivity | reflexivity |].
  split; [exact Ha|].
  apply (He Examples.manor Examples.lab_run); try reflexivity.
  - cbn. intuition discriminate.
  - cbn. intuition discriminate.
  - cbn. intuition discriminate.
Defined.

(** C5 as worded fails: in a case whose lab clue already lies at the scene,
    the first request takes its point and the callback closes the lab
    without adding anything, so the clue is not added once but never. *)
Lemma handleLab_clue_already_found :
  let w := Examples.opened Examples.cellar in
  let w' := run w [SendToLab; LabComplete] in
  e_labClue (c_evidence Examples.cellar) = "Blood sample" /\
  evidenceFound (w_state w) = ["Blood sample"] /\
  actionPoints (w_state w) = 20 /\
  actionPoints (w_state w') = 19 /\
  evidenceFound (w_state w') = ["Blood sample"] /\
  labReady (w_state w') = false /\
  labProcessing (w_state w') = false /\
  lab_additions w [SendToLab; LabComplete] = 0%nat.
Proof. cbn zeta. repeat split; reflexivity. Qed.

End Lab.


(** ** The store: initialisation and migration *)

Section StoreInit.

Import GameDatabase.

(** [init] always leaves a document of the current version, and running it
    again, at any later time, changes nothing: a fresh document is written
    once, a current one is kept, and an old one is migrated once. *)
Theorem init_idempotent (now1 now2 : Z) (ls : option Doc) :
  (exists d, init now1 ls = Some d /\ d_version d = VERSION) /\
  init now2 (init now1 ls) = init now1 ls.
Proof.
  unfold init. destruct ls as [data|]; [|split; [eexists; split|]; reflexivity].
  destruct (Z.eqb_spec (d_version data) VERSION) as [E|E].
  - split; [eauto|]. now rewrite (proj2 (Z.eqb_eq _ _) E).
  - split; [eexists; split; reflexivity | reflexivity].
Qed.

Lemma solved_total_empty : solved_total ∅ = 0.
Proof. apply map_fold_empty. Qed.

Lemma solved_total_insert (users : gmap string User) (id : string) (u : User) :
  users !! id = None ->
  solved_total (<[id := u]> users)
  = solved_total users + Z.of_nat (length (u_solvedCases u)).
Proof.
  intros H. unfold solved_total.
  rewrite map_fold_insert_L; [reflexivity | intros; lia | exact H].
Qed.

Lemma solved_total_migrated (now : Z) (users : gmap string User) :
  solved_total (migrate_user now <$> users) = solved_total users.
Proof.
  induction users as [|id u users Hid IH] using map_ind.
  - now rewrite fmap_empty.
  - rewrite fmap_insert, !solved_total_insert, IH; [reflexivity | exact Hid |].
    now rewrite lookup_fmap, Hid.
Qed.

(** The migration writes a document of the current version with the same
    user ids, every profile keeping its id, name, xp, rank and solved cases
    and restarting its login count at 1; the totals are recomputed from the
    profiles (the user count, and the solved cases summed over the
    profiles), so migrating the result once more gives the same totals. *)
Theorem migrate_recounts (now now' : Z) (old : Doc) :
  exists d d',
    _migrateFromV1 now old = Some d /\
    d_version d = VERSION /\
    d_lastUser d = d_lastUser old /\
    (forall id, d_users d !! id = migrate_user now <$> d_users old !! id) /\
    (forall id u, d_users d !! id = Some u ->
       exists u0, d_users old !! id = Some u0 /\
         u_id u = u_id u0 /\ u_name u = u_name u0 /\ u_xp u = u_xp u0 /\
         u_rankIndex u = u_rankIndex u0 /\ u_solvedCases u = u_solvedCases u0 /\
         u_loginCount u = Some 1) /\
    totalUsers (d_statistics d) = Z.of_nat (size (d_users old)) /\
    totalCasesSolved (d_statistics d) = solved_total (d_users old) /\
    solved_total ∅ = 0 /\
    (forall users id u, users !! id = None ->
       solved_total (<[id := u]> users)
       = solved_total users + Z.of_nat (length (u_solvedCases u))) /\
    _migrateFromV1 now' d = Some d' /\
    totalUsers (d_statistics d') = totalUsers (d_statistics d) /\
    totalCasesSolved (d_statistics d') = totalCasesSolved (d_statistics d).
Proof.
  eexists _, _. split; [reflexivity|].
  cbn [_migrateFromV1 _save d_version d_lastUser d_users d_statistics
       totalUsers totalCasesSolved].
  repeat match goal with |- _ /\ _ => split end; try reflexivity;
    try apply solved_total_empty; try apply solved_total_insert.
  - intros id. apply lookup_fmap.
  - intros id u. rewrite lookup_fmap.
    destruct (d_users old !! id) as [u0|]; [|discriminate].
    intros H. injection H as <-. exists u0. repeat split.
  - cbn [_migrateFromV1 _save d_users d_statistics totalUsers].
    now rewrite map_size_fmap.
  - cbn [_migrateFromV1 _save d_users d_statistics totalCasesSolved].
    apply solved_total_migrated.
Qed.

End StoreInit.

(** ** The store: profiles *)

Section StoreProfiles.

Import GameDatabase.


(** [createUser] under a name whose id is free, and is not the name of an
    inherited function, stores a zeroed profile under that id and [getUser]
    reads it back; the other profiles, the last user and the settings are
    untouched, and the stored user count is the number of profiles, one more
    than before. *)
Theorem createUser_fresh (now now' : Z) (name : string) (doc : Doc) :
  d_users doc !! _generateUserId name = None ->
  Js.inherited (_generateUserId name) = false ->
  exists u doc',
    createUser now name (Some doc) = (Some u, Some doc') /\
    u_id u = _generateUserId name /\ u_name u = Js.trim name /\
    u_xp u = 0 /\ u_rankIndex u = 0%nat /\ u_solvedCases u = [] /\
    getUser now' (_generateUserId name) (Some doc') = (Profile u, Some doc') /\
    (forall other, other <> _generateUserId name ->
       d_users doc' !! other = d_users doc !! other) /\
    d_lastUser doc' = d_lastUser doc /\ d_settings doc' = d_settings doc /\
    totalUsers (d_statistics doc') = Z.of_nat (size (d_users doc')) /\
    size (d_users doc') = S (size (d_users doc)).
Proof.
  intros H Hown. unfold createUser, getDB, users_at. rewrite H, Hown.
  eexists _, _. split; [reflexivity|].
  unfold getUser, getDB, users_at.
  cbn [_save d_users d_lastUser d_settings d_statistics totalUsers
       u_id u_name u_xp u_rankIndex u_solvedCases].
  rewrite lookup_insert_eq.
  repeat match goal with |- _ /\ _ => split end; try reflexivity.
  - intros other Hne. now rewrite lookup_insert_ne.
  - now apply map_size_insert_None.
Qed.

Lemma createUser_fresh_witness :
  exists u doc',
    createUser 3 "Sam Spade" (Some Examples.jane_doc) = (Some u, Some doc')
    /\ u_id u = "sam_spade"
    /\ totalUsers (d_statistics doc') = 2.
Proof.
  destruct (createUser_fresh 3 4 "Sam Spade" Examples.jane_doc eq_refl eq_refl)
    as (u & doc' & H & Hid & _ & _ & _ & _ & _ & _ & _ & _ & Ht & Hs).
  exists u, doc'. split; [exact H|]. split; [exact Hid|].
  rewrite Ht, Hs. reflexivity.
Defined.

(** Whatever the store holds, a second [createUser] under a name that
    differs from the first only in letter case and surrounding white space
    is refused and leaves the store exactly as the first call left it. *)
Theorem createUser_twice (now1 now2 : Z) (n1 n2 : string) (ls : option Doc) :
  same_name n1 n2 ->
  createUser now2 n2 (snd (createUser now1 n1 ls))
  = (None, snd (createUser now1 n1 ls)).
Proof.
  intros Hsame.
  assert (Hid : _generateUserId n2 = _generateUserId n1).
  { unfold _generateUserId. now rewrite (same_name_normal _ _ Hsame). }
  unfold createUser at 2 3.
  destruct (getDB now1 ls) as [db ls0] eqn:Edb.
  assert (Els0 : ls0 = Some db).
  { unfold getDB in Edb. destruct ls; cbn in Edb; now injection Edb as <- <-. }
  subst ls0.
  destruct (users_at db (_generateUserId n1)) as [existing|key|] eqn:E; cbn [snd].
  - unfold createUser, getDB. now rewrite Hid, E.
  - unfold createUser, getDB. now rewrite Hid, E.
  - unfold createUser, getDB, _save, users_at. cbn [d_users]. rewrite Hid.
    now rewrite lookup_insert_eq.
Qed.

Lemma createUser_twice_witness :
  fst (createUser 2 "  JANE DOE!  " (snd (createUser 1 "Jane Doe!" None))) = None.
Proof.
  assert (Hs : same_name "Jane Doe!" "  JANE DOE!  ").
  { exists "", "", "  ", "  ", "Jane Doe!", "JANE DOE!". repeat split; reflexivity. }
  now rewrite (createUser_twice 1 2 _ _ None Hs).
Defined.



(** Creating a profile under a free id and deleting it again restores the
    stored profiles, the last user and the user count of a consistent
    document. *)
Theorem createUser_deleteUser (now1 now2 : Z) (name : string) (doc : Doc) :
  d_users doc !! _generateUserId name = None ->
  d_lastUser doc <> Some (_generateUserId name) ->
  exists doc'',
    deleteUser now2 (_generateUserId name) (snd (createUser now1 name (Some doc)))
      = (true, Some doc'') /\
    d_users doc'' = d_users doc /\
    d_lastUser doc'' = d_lastUser doc /\
    d_settings doc'' = d_settings doc /\
    totalUsers (d_statistics doc'') = Z.of_nat (size (d_users doc)).
Proof.
  intros H Hl.
  assert (L : match d_lastUser doc with
              | Some l => if String.eqb l (_generateUserId name) then None else Some l
              | None => None
              end = d_lastUser doc).
  { destruct (d_lastUser doc) as [l|]; [|reflexivity].
    destruct (String.eqb_spec l (_generateUserId name)); [congruence | reflexivity]. }
  unfold createUser, getDB, users_at. rewrite H.
  destruct (Js.inherited (_generateUserId name)) eqn:Hin; cbn [snd].
  - unfold deleteUser, getDB, users_at. rewrite H, Hin.
    eexists. split; [reflexivity|].
    cbn [_save d_users d_lastUser d_settings d_statistics totalUsers].
    rewrite (delete_id _ _ H), L. repeat split.
  - unfold _save at 1.
    unfold deleteUser, getDB, users_at. cbn [d_users]. rewrite lookup_insert_eq.
    eexists. split; [reflexivity|].
    cbn [_save d_users d_lastUser d_settings d_statistics totalUsers].
    rewrite delete_insert_id by exact H. rewrite L. repeat split.
Qed.

Lemma createUser_deleteUser_witness :
  exists doc'',
    deleteUser 4 "sam_spade" (snd (createUser 3 "Sam Spade" (Some Examples.jane_doc)))
      = (true, Some doc'')
    /\ d_users doc'' = d_users Examples.jane_doc.
Proof.
  destruct (createUser_deleteUser 3 4 "Sam Spade" Examples.jane_doc eq_refl
              ltac:(discriminate))
    as (doc'' & H & Hu & _).
  exists doc''. split; [exact H | exact Hu].
Defined.

End StoreProfiles.

(** ** The store: logins *)

Section StoreLogin.

Import GameDatabase.

Lemma or_elseZ_0 (n : Z) : Js.or_elseZ n 0 = n.
Proof. unfold Js.or_elseZ. destruct (Z.eqb_spec n 0); congruence. Qed.

(** [login] under a name whose profile is stored returns that profile with
    the login time set and the login count raised by one, everything else
    of it kept; the profile is stored so, the other profiles and the
    statistics are untouched, and the id becomes the last user, which
    [getLastUser] then returns. *)
Theorem login_existing (now now' : Z) (name : string) (doc : Doc) (stored : User) :
  d_users doc !! _generateUserId name = Some stored ->
  Js.truthy (_generateUserId name) = true ->
  exists u doc',
    login now name (Some doc) = (Profile u, Some doc') /\
    u_lastLogin u = now /\
    u_loginCount u = Some (default 0 (u_loginCount stored) + 1) /\
    u_id u = u_id stored /\ u_name u = u_name stored /\ u_xp u = u_xp stored /\
    u_rankIndex u = u_rankIndex stored /\ u_solvedCases u = u_solvedCases stored /\
    d_users doc' !! _generateUserId name = Some u /\
    (forall other, other <> _generateUserId name ->
       d_users doc' !! other = d_users doc !! other) /\
    d_statistics doc' = d_statistics doc /\
    d_lastUser doc' = Some (_generateUserId name) /\
    getLastUser now' (Some doc') = (Profile u, Some doc').
Proof.
  intros H Ht. unfold login, getDB, users_at. rewrite H.
  eexists _, _. split; [reflexivity|].
  unfold getLastUser, getUser, getDB, users_at.
  cbn [_save d_users d_lastUser d_statistics set_users set_lastUser bump_login
       u_lastLogin u_loginCount u_id u_name u_xp u_rankIndex u_solvedCases].
  rewrite Ht, lookup_insert_eq.
  repeat match goal with |- _ /\ _ => split end; try reflexivity.
  - destruct (u_loginCount stored) as [n|]; cbn [default]; [|reflexivity].
    now rewrite or_elseZ_0.
  - intros other Hne. now rewrite lookup_insert_ne.
Qed.

Lemma login_existing_witness :
  exists u doc',
    login 8 " jane doe! " (Some Examples.jane_doc) = (Profile u, Some doc')
    /\ u_loginCount u = Some 1
    /\ fst (getLastUser 9 (Some doc')) = Profile u.
Proof.
  destruct (login_existing 8 9 " jane doe! " Examples.jane_doc Examples.jane
              eq_refl eq_refl)
    as (u & doc' & H & _ & Hc & _ & _ & _ & _ & _ & _ & _ & _ & _ & Hl).
  exists u, doc'. split; [exact H|]. split; [exact Hc|]. now rewrite Hl.
Defined.

(** [login] under a name with no stored profile, whose id is not the name
    of an inherited function, returns a new profile with login count 1, but
    what it saves is the document it read before the profile was created:
    the stored profiles and statistics are as before, only the last user is
    set to the new id, under which [getUser] and [getLastUser] find
    nothing. *)
Theorem login_new (now now' : Z) (name : string) (doc : Doc) :
  d_users doc !! _generateUserId name = None ->
  Js.inherited (_generateUserId name) = false ->
  exists doc',
    login now name (Some doc) = (Profile (first_profile now name), Some doc') /\
    d_users doc' = d_users doc /\
    d_statistics doc' = d_statistics doc /\
    d_settings doc' = d_settings doc /\
    d_lastUser doc' = Some (_generateUserId name) /\
    getUser now' (_generateUserId name) (Some doc') = (NoEntry, Some doc') /\
    getLastUser now' (Some doc') = (NoEntry, Some doc').
Proof.
  intros H Hown. unfold login, createUser, getDB, users_at. rewrite H, Hown.
  eexists. split; [reflexivity|].
  unfold getLastUser, getUser, getDB, users_at.
  cbn [_save d_users d_lastUser d_statistics d_settings set_lastUser].
  rewrite H, Hown. destruct (Js.truthy (_generateUserId name)); repeat split.
Qed.

Lemma login_new_witness :
  exists doc',
    login 3 "Sam Spade" (Some Examples.jane_doc)
      = (Profile (first_profile 3 "Sam Spade"), Some doc')
    /\ d_users doc' !! "sam_spade" = None
    /\ d_lastUser doc' = Some "sam_spade".
Proof.
  destruct (login_new 3 4 "Sam Spade" Examples.jane_doc eq_refl eq_refl)
    as (doc' & H & Hu & _ & _ & Hl & _).
  exists doc'. split; [exact H|]. split; [now rewrite Hu | exact Hl].
Defined.

End StoreLogin.

(** ** Export and import *)

Section ExportImport.

Import GameDatabaseJson.

(** Exporting a stored document does not write, and importing the exported
    text stores the same users, last user, settings and statistics again,
    at the current version and with the time of the import; the stored text
    has the persistence shape. *)
Theorem export_import (now now' : Z) (doc : Doc) (item : option json) :
  snd (exportData now (Some doc)) = Some doc /\
  exists doc',
    importData now' (Some (fst (exportData now (Some doc)))) item
      = (true, Some (json_of_doc doc')) /\
    d_users doc' = d_users doc /\ d_lastUser doc' = d_lastUser doc /\
    d_settings doc' = d_settings doc /\ d_statistics doc' = d_statistics doc /\
    d_version doc' = GameDatabase.VERSION /\ d_lastUpdated doc' = Some now' /\
    valid_document (json_of_doc doc') = true.
Proof.
  split; [reflexivity|].
  unfold exportData, GameDatabase.getDB. cbn [fst].
  unfold importData. change (is_object (json_of_doc doc)) with true. cbn iota.
  rewrite save_json_of_doc. eexists. split; [reflexivity|].
  repeat split. apply json_of_doc_valid.
Qed.

End ExportImport.

(** ** Ids are normal forms *)

Section IdNormalForm.

Import Js GameDatabase.

Lemma is_id_char_plain (c : ascii) :
  is_id_char c = true -> is_upper c = false /\ is_space c = false.
Proof. destruct c as [[] [] [] [] [] [] [] []]; cbn; intros H; now try discriminate H. Qed.

Lemma toLowerCase_id_chars (s : string) :
  all_chars is_id_char s = true -> toLowerCase s = s.
Proof.
  induction s as [|c s IH]; cbn [all_chars toLowerCase]; [reflexivity|].
  rewrite andb_true_iff. intros [Hc Hs]. unfold lower_char.
  now rewrite (proj1 (is_id_char_plain c Hc)), IH.
Qed.

Lemma trimEnd_id_chars (s : string) :
  all_chars is_id_char s = true -> trimEnd s = s.
Proof.
  induction s as [|c s IH]; cbn [all_chars trimEnd]; [reflexivity|].
  rewrite andb_true_iff. intros [Hc Hs]. rewrite (IH Hs).
  destruct s; [|reflexivity]. now rewrite (proj2 (is_id_char_plain c Hc)).
Qed.

Lemma trim_id_chars (s : string) : all_chars is_id_char s = true -> trim s = s.
Proof.
  intros H. unfold trim.
  assert (E : trimStart s = s).
  { destruct s as [|c s]; [reflexivity|]. cbn [all_chars] in H.
    apply andb_true_iff in H as [Hc _]. cbn [trimStart].
    now rewrite (proj2 (is_id_char_plain c Hc)). }
  rewrite E. now apply trimEnd_id_chars.
Qed.

Lemma replace_non_id_id_chars (s : string) :
  all_chars is_id_char s = true -> replace_non_id s = s.
Proof.
  induction s as [|c s IH]; cbn [all_chars replace_non_id]; [reflexivity|].
  rewrite andb_true_iff. intros [-> Hs]. now rewrite IH.
Qed.

Lemma squeeze_no_double_fixed (s : string) :
  no_double_underscore s = true ->
  squeeze_underscores false s = s /\
  (match s with String c _ => is_underscore c = false | EmptyString => True end ->
   squeeze_underscores true s = s).
Proof.
  induction s as [|c s IH]; [split; reflexivity|].
  cbn [no_double_underscore squeeze_underscores]. rewrite andb_true_iff.
  intros [Hh Ht]. destruct (IH Ht) as [IH1 IH2].
  destruct (is_underscore c) eqn:Ec.
  - split; [|discriminate]. f_equal. apply IH2.
    destruct s as [|d s]; [exact I|]. cbn in Hh. now destruct (is_underscore d).
  - split; [now rewrite IH1 | intros _; now rewrite IH1].
Qed.

(** An id is its own id: normalising a second time changes nothing, so a
    profile can be looked up by its id as well as by its name. *)
Theorem generateUserId_idempotent (name : string) :
  _generateUserId (_generateUserId name) = _generateUserId name.
Proof.
  destruct (generateUserId_chars name) as [Hc Hd].
  unfold _generateUserId at 1.
  rewrite (toLowerCase_id_chars _ Hc), (trim_id_chars _ Hc),
    (replace_non_id_id_chars _ Hc), collapse_underscores_squeeze.
  now apply squeeze_no_double_fixed.
Qed.

End IdNormalForm.

(** ** The action budget *)

Section Budget.

Import Session Game.

Lemma step_budget (w : World) (op : Op) :
  is_start op = false ->
  actionPoints (w_state w) - (if may_cost op then 1 else 0)
    <= actionPoints (w_state (step w op)) <= actionPoints (w_state w).
Proof.
  intros Hop. pose proof (step_core w op) as C. cbn zeta in C. unfold core in C.
  revert C. generalize (w_state (step w op)) as st'. intros st' C.
  destruct op; try discriminate Hop; cbn [may_cost];
    repeat match type of C with
           | _ \/ _ => destruct C as [C | [? C]]
           | context [if ?b then _ else _] => destruct b eqn:?
           | context [match ?x with _ => _ end] => destruct x eqn:?
           end;
    injection C as _ _ _ -> _ _; lia.
Qed.

Lemma step_at_most_20 (w : World) (op : Op) :
  actionPoints (w_state w) <= 20 -> actionPoints (w_state (step w op)) <= 20.
Proof.
  intros H. destruct (is_start op) eqn:Hop.
  - destruct op; try discriminate Hop.
    pose proof (step_core w (StartCase caseId)) as C. cbn zeta in C. unfold core in C.
    revert C. generalize (w_state (step w (StartCase caseId))) as st'. intros st' C.
    destruct (find_case (activeCases (w_state w)) caseId);
      injection C as _ _ _ -> _ _; lia.
  - pose proof (step_budget w op Hop). lia.
Qed.

(** Along every run from the loaded page the action points stay between 0
    and 20. *)
Theorem actionPoints_at_most_20 (cases : list Case) (u : option User)
    (key : option string) (ls : option Doc) (ops : list Op) :
  0 <= actionPoints (w_state (run (world0 cases u key ls) ops)) <= 20.
Proof.
  split; [apply run_actionPoints; cbn; lia|].
  assert (H : actionPoints (w_state (world0 cases u key ls)) <= 20) by (cbn; lia).
  revert H. generalize (world0 cases u key ls) as w.
  induction ops as [|op ops IH]; intros w H; [exact H|].
  cbn [run fold_left]. apply IH, step_at_most_20, H.
Qed.

(** Without opening a case the action points never rise, and a run takes at
    most one point for each message, search or lab request in it: choosing a
    suspect, a reply, a lab result and an accusation are free. *)
Theorem actionPoints_budget (w : World) (ops : list Op) :
  no_start ops = true ->
  actionPoints (w_state w) - Z.of_nat (length (List.filter may_cost ops))
    <= actionPoints (w_state (run w ops)) <= actionPoints (w_state w).
Proof.
  revert w. induction ops as [|op ops IH]; intros w H; [cbn; lia|].
  cbn [no_start forallb] in H. apply andb_true_iff in H as [Hop H].
  apply negb_true_iff in Hop.
  specialize (IH (step w op) H). pose proof (step_budget w op Hop) as B.
  cbn [run fold_left List.filter]. fold (run (step w op) ops).
  destruct (may_cost op); cbn [length]; lia.
Qed.

Lemma actionPoints_budget_witness :
  17 <= actionPoints
          (w_state (run (Examples.opened Examples.manor)
                        [SelectSuspect "suspect_1"; SendMessage "Why?"; Search "body";
                         LabComplete; SendToLab; Accuse 5 "suspect_2" "money"]))
     <= 20.
Proof.
  exact (actionPoints_budget (Examples.opened Examples.manor)
           [SelectSuspect "suspect_1"; SendMessage "Why?"; Search "body";
            LabComplete; SendToLab; Accuse 5 "suspect_2" "money"] eq_refl).
Defined.

End Budget.

(** ** Where the evidence comes from *)

Section Provenance.

Import Session Game.

Lemma search_list_from_case (type : string) (c : Case) (item : string) :
  In item (search_list type c) ->
  In item (e_bodySearch (c_evidence c)) \/ In item (e_roomSearch (c_evidence c)).
Proof.
  unfold search_list. destruct (String.eqb type "room"); [now right|].
  destruct (String.eqb type "body"); [now left | intros []].
Qed.

Lemma step_evidence_of_case (w : World) (op : Op) :
  evidence_of_case w -> evidence_of_case (step w op).
Proof.
  unfold evidence_of_case, from_case. intros Hw.
  pose proof (step_core w op) as C. cbn zeta in C. unfold core in C.
  revert C. generalize (w_state (step w op)) as st'. intros st' C.
  destruct op;
    repeat match type of C with
           | _ \/ _ => destruct C as [C | [? C]]
           | context [if ?b then _ else _] => destruct b eqn:?
           | context [match ?x with _ => _ end] => destruct x eqn:?
           end;
    injection C as -> _ -> _ _ _; try exact Hw; try discriminate.
  - intros c' H item Hin. injection H as <-. now left.
  - intros c' H item Hin. apply in_app_iff in Hin as [Hin | Hin].
    + now apply (Hw c').
    + match goal with E : not_yet_found ?a ?b = ?l |- _ => rewrite <- E in Hin end.
      apply not_yet_found_In in Hin as [Hin _].
      injection H as <-. apply search_list_from_case in Hin. tauto.
  - intros c' H item Hin. injection H as <-.
    apply in_app_iff in Hin as [Hin | [<- | []]].
    + now apply (Hw c).
    + tauto.
Qed.

(** Along every run from the loaded page, while a case is open every item
    of the evidence list is an initial clue of that case, an item of its
    body or room search list, or its lab clue. The smoking gun of a case is
    never put on the list unless it is also one of those. *)
Theorem evidence_from_current_case (cases : list Case) (u : option User)
    (key : option string) (ls : option Doc) (ops : list Op) :
  let w := run (world0 cases u key ls) ops in
  match currentCase (w_state w) with
  | Some c =>
      from_case c (evidenceFound (w_state w)) /\
      (~ In (e_smokingGun (c_evidence c)) (e_initial (c_evidence c)) ->
       ~ In (e_smokingGun (c_evidence c)) (e_bodySearch (c_evidence c)) ->
       ~ In (e_smokingGun (c_evidence c)) (e_roomSearch (c_evidence c)) ->
       e_smokingGun (c_evidence c) <> e_labClue (c_evidence c) ->
       ~ In (e_smokingGun (c_evidence c)) (evidenceFound (w_state w)))
  | None => True
  end.
Proof.
  cbn zeta.
  assert (H : evidence_of_case (run (world0 cases u key ls) ops)).
  { assert (H0 : evidence_of_case (world0 cases u key ls)) by (intros c' H'; discriminate H').
    revert H0. generalize (world0 cases u key ls) as w.
    induction ops as [|op ops IH]; intros w H0; [exact H0|].
    cbn [run fold_left]. apply IH, step_evidence_of_case, H0. }
  destruct (currentCase (w_state (run (world0 cases u key ls) ops))) as [c'|] eqn:E;
    [|exact I].
  split; [exact (H c' E)|].
  intros H1 H2 H3 H4 Hin. apply (H c' E) in Hin. tauto.
Qed.

End Provenance.

(** ** The lab callback *)

Section LabTimers.

Import Session Game.

Lemma step_labTimers (w : World) (op : Op) :
  w_labTimers (step w op)
  = match op with
    | SendToLab =>
        if (actionPoints (w_state w) <=? 0) || negb (labReady (w_state w))
           || labProcessing (w_state w)
        then w_labTimers w else S (w_labTimers w)
    | LabComplete => Nat.pred (w_labTimers w)
    | _ => w_labTimers w
    end.
Proof.
  destruct op; cbn [step on_state with_state w_labTimers]; try reflexivity.
  - now destruct (handleUserMessage value (w_state w)).
  - now destruct (w_pending w !! i).
  - unfold handleLab.
    now destruct ((actionPoints (w_state w) <=? 0) || negb (labReady (w_state w))
                  || labProcessing (w_state w)).
  - destruct (w_labTimers w) eqn:E; cbn; [exact E | reflexivity].
  - apply core_handleAccusation.
Qed.

Lemma step_analysis_pending (w : World) (op : Op) :
  analysis_pending w -> analysis_pending (step w op).
Proof.
  unfold analysis_pending. intros Hw.
  pose proof (step_core w op) as C. cbn zeta in C. unfold core in C.
  rewrite step_labTimers.
  revert C. generalize (w_state (step w op)) as st'. intros st' C.
  destruct op;
    repeat match type of C with
           | _ \/ _ => destruct C as [C | [? C]]
           | context [if ?b then _ else _] => destruct b eqn:?
           | context [match ?x with _ => _ end] => destruct x eqn:?
           end;
    injection C as -> _ _ _ _ ->; try exact Hw; try discriminate;
    try (intros; lia).
  all: intros c' Hc Hp; specialize (Hw c' Hc Hp); try lia.
  all: try (match goal with E : w_labTimers _ = _ |- _ => rewrite E in Hw end; lia).
Qed.

(** Along every run from the loaded page, while a case is open an analysis
    in progress has its callback waiting: the lab cannot stay in progress
    for ever. When the callback fires, the lab clue is in the evidence, the
    analysis is over and the lab is closed. *)
Theorem lab_analysis_completes (cases : list Case) (u : option User)
    (key : option string) (ls : option Doc) (ops : list Op) :
  let w := run (world0 cases u key ls) ops in
  match currentCase (w_state w) with
  | Some c =>
      if labProcessing (w_state w) then
        (1 <= w_labTimers w)%nat /\
        let st' := w_state (step w LabComplete) in
        In (e_labClue (c_evidence c)) (evidenceFound st') /\
        labProcessing st' = false /\ labReady st' = false /\
        actionPoints st' = actionPoints (w_state w)
      else True
  | None => True
  end.
Proof.
  cbn zeta.
  assert (H : analysis_pending (run (world0 cases u key ls) ops)).
  { assert (H0 : analysis_pending (world0 cases u key ls)) by (intros c' H'; discriminate H').
    revert H0. generalize (world0 cases u key ls) as w.
    induction ops as [|op ops IH]; intros w H0; [exact H0|].
    cbn [run fold_left]. apply IH, step_analysis_pending, H0. }
  generalize dependent (run (world0 cases u key ls) ops). intros w H.
  destruct (currentCase (w_state w)) as [c|] eqn:Ec; [|exact I].
  destruct (labProcessing (w_state w)) eqn:Ep; [|exact I].
  specialize (H c Ec Ep). split; [exact H|].
  pose proof (step_core w LabComplete) as C. cbn zeta in C. unfold core in C.
  revert C. generalize (w_state (step w LabComplete)) as st'. intros st' C.
  destruct (w_labTimers w) as [|n]; [lia|]. rewrite Ec in C.
  injection C as _ _ Hf Ha Hr Hp. repeat split; try assumption.
  rewrite Hf. destruct (array_includes _ _) eqn:E.
  - now apply array_includes_In.
  - apply in_app_iff. right. now left.
Qed.

End LabTimers.

(** ** Small talk *)

Section RoundRobin.

Import Session.






End RoundRobin.

(** ** A question and its reply *)

Section Interrogation.

Import Session Game.





End Interrogation.

(** ** The rank table *)

Section RankTable.

Import PlayerStats.

Lemma rank_of_bound (ranks : list Rank) (xp : Z) :
  (rank_of ranks xp <= Nat.pred (List.length ranks))%nat.
Proof.
  unfold rank_of.
  destruct (rank_loop_spec xp ranks 0 0) as [[-> _] | (j & r & -> & Hj & _)]; [lia|].
  apply lookup_lt_Some in Hj. lia.
Qed.

Lemma rank_of_monotone (ranks : list Rank) (xp1 xp2 : Z) :
  xp1 <= xp2 -> (rank_of ranks xp1 <= rank_of ranks xp2)%nat.
Proof.
  intros H. unfold rank_of.
  destruct (rank_loop_spec xp1 ranks 0 0) as [[-> _] | (j1 & r1 & -> & Hj1 & Ht1 & _)];
    [lia|].
  destruct (rank_loop_spec xp2 ranks 0 0) as [[_ Hall] | (j2 & r2 & -> & _ & _ & Hup)].
  - specialize (Hall _ _ Hj1). lia.
  - destruct (Nat.le_gt_cases j1 j2) as [?|Hlt]; [lia|].
    specialize (Hup _ _ Hlt Hj1). lia.
Qed.

(** An award of a non-negative amount never lowers the rank of a player
    whose rank index agrees with their xp: the new index is the one of the
    new xp, at least the old one and at most 5, and a promotion modal is
    shown exactly when the index rose. *)
Theorem addXP_never_demotes (now amount : Z) (w : World) (u : User) :
  user (w_state w) = Some u ->
  u_rankIndex u = rank_of RANKS (u_xp u) ->
  0 <= amount ->
  exists u',
    user (w_state (addXP now amount w)) = Some u' /\
    u_xp u' = u_xp u + amount /\
    u_rankIndex u' = rank_of RANKS (u_xp u') /\
    (u_rankIndex u <= u_rankIndex u' <= 5)%nat /\
    (u_rankIndex u' = u_rankIndex u ->
       w_rankUpModals (addXP now amount w) = w_rankUpModals w) /\
    (u_rankIndex u' <> u_rankIndex u ->
       w_rankUpModals (addXP now amount w) = (w_rankUpModals w ++ [u_rankIndex u'])%list).
Proof.
  intros Hu Hr Ha. unfold addXP, addXP_with. rewrite Hu.
  destruct (GameDatabase.updateUser _ _ _ _) as [r ls].
  eexists. split; [reflexivity|].
  cbn [w_rankUpModals u_xp u_rankIndex set_xp_rank].
  pose proof (rank_of_monotone RANKS (u_xp u) (u_xp u + amount) ltac:(lia)) as Hm.
  pose proof (rank_of_bound RANKS (u_xp u + amount)) as Hb.
  change (Nat.pred (List.length RANKS)) with 5%nat in Hb.
  rewrite Hr. repeat match goal with |- _ /\ _ => split end; try reflexivity; try lia.
  - intros E. rewrite E. now rewrite Nat.ltb_irrefl.
  - intros E. destruct (Nat.ltb_spec (rank_of RANKS (u_xp u)) (rank_of RANKS (u_xp u + amount)));
      [reflexivity | lia].
Qed.

Lemma addXP_never_demotes_witness :
  exists u',
    user (w_state (addXP 2 250
             (Game.world0 [] (Some Examples.jane) None (Some Examples.jane_doc))))
      = Some u'
    /\ (0 <= u_rankIndex u' <= 5)%nat.
Proof.
  destruct (addXP_never_demotes 2 250
              (Game.world0 [] (Some Examples.jane) None (Some Examples.jane_doc))
              Examples.jane eq_refl eq_refl ltac:(lia))
    as (u' & H & _ & _ & Hb & _).
  exists u'. split; [exact H | exact Hb].
Defined.

End RankTable.

(** ** Verdicts *)

Section Verdicts.

Import Accusation.

Lemma append_assoc (a b c : string) : (a +:+ b) +:+ c = a +:+ (b +:+ c).
Proof.
  induction a as [|x a IH]; [reflexivity|].
  change (String x ((a +:+ b) +:+ c) = String x (a +:+ (b +:+ c))). now rewrite IH.
Qed.

Lemma occurs_in_trans (a b c : string) : occurs_in a b -> occurs_in b c -> occurs_in a c.
Proof.
  intros (p1 & q1 & ->) (p2 & q2 & ->). exists (p2 +:+ p1), (q1 +:+ q2).
  now rewrite !append_assoc.
Qed.

Lemma filter_length_mono {A : Type} (p q : A -> bool) (l : list A) :
  (forall x, p x = true -> q x = true) ->
  (List.length (List.filter p l) <= List.length (List.filter q l))%nat.
Proof.
  intros H. induction l as [|x l IH]; [reflexivity|]. cbn [List.filter].
  destruct (p x) eqn:Ep.
  - rewrite (H x Ep). cbn [List.length]. lia.
  - destruct (q x); cbn [List.length]; lia.
Qed.

(** Saying more never hurts: when one motive text occurs in another, every
    keyword found in the first is found in the second, so an accusation
    that succeeds with the first succeeds with the second. *)
Theorem judge_longer_motive (caseData : Case) (suspectId m1 m2 : string) :
  occurs_in m1 m2 ->
  (keywordHits (judge caseData suspectId m1)
   <= keywordHits (judge caseData suspectId m2))%nat /\
  requiredHits (judge caseData suspectId m2) = requiredHits (judge caseData suspectId m1) /\
  (success (judge caseData suspectId m1) = true ->
   success (judge caseData suspectId m2) = true).
Proof.
  intros H.
  assert (Hk : (keywordHits (judge caseData suspectId m1)
                <= keywordHits (judge caseData suspectId m2))%nat).
  { cbn [judge keywordHits]. apply filter_length_mono. intros kw.
    rewrite !includes_occurs. intros Hkw. exact (occurs_in_trans _ _ _ Hkw H). }
  split; [exact Hk|]. split; [reflexivity|].
  unfold success. cbn [judge isCorrectSuspect isCorrectMotive] in *.
  rewrite !andb_true_iff, !Nat.leb_le. cbn [judge keywordHits] in Hk. intros [Hs Hm].
  split; [exact Hs | lia].
Qed.

Lemma judge_longer_motive_witness :
  success (judge Examples.manor "suspect_2" "it was about money and an old debt") = true.
Proof.
  assert (H : occurs_in "money and an old debt" "it was about money and an old debt")
    by (exists "it was about ", ""; reflexivity).
  exact (proj2 (proj2 (judge_longer_motive Examples.manor "suspect_2" _ _ H)) eq_refl).
Defined.

(** The verdict at its edges: a case without keywords accepts any motive;
    the wrong suspect never succeeds; a motive naming every keyword is
    correct; and, when there is a keyword, a motive naming none is not. *)
Theorem judge_edge_cases (caseData : Case) (suspectId motiveText : string) :
  let v := judge caseData suspectId motiveText in
  (c_motiveKeywords caseData = [] -> isCorrectMotive v = true) /\
  (suspectId <> c_killerId caseData -> success v = false) /\
  ((forall kw, In kw (c_motiveKeywords caseData) -> occurs_in kw motiveText) ->
   isCorrectMotive v = true) /\
  (c_motiveKeywords caseData <> [] ->
   (forall kw, In kw (c_motiveKeywords caseData) -> ~ occurs_in kw motiveText) ->
   isCorrectMotive v = false).
Proof.
  cbn zeta. unfold success. cbn [judge isCorrectSuspect isCorrectMotive keywordHits requiredHits].
  repeat match goal with |- _ /\ _ => split end.
  - intros ->. reflexivity.
  - intros Hne. destruct (String.eqb_spec suspectId (c_killerId caseData)); [congruence|].
    reflexivity.
  - intros Hall. apply Nat.leb_le.
    assert (E : List.filter (fun keyword => Js.includes motiveText keyword)
                  (c_motiveKeywords caseData) = c_motiveKeywords caseData).
    { induction (c_motiveKeywords caseData) as [|kw l IH]; [reflexivity|].
      cbn [List.filter]. rewrite (proj2 (includes_occurs _ _) (Hall kw (or_introl eq_refl))).
      f_equal. apply IH. intros k Hk. apply Hall. now right. }
    rewrite E. pose proof (ceil_half_least (List.length (c_motiveKeywords caseData))
                             (List.length (c_motiveKeywords caseData))). lia.
  - intros Hne Hnone. apply Nat.leb_gt.
    assert (E : List.filter (fun keyword => Js.includes motiveText keyword)
                  (c_motiveKeywords caseData) = []).
    { induction (c_motiveKeywords caseData) as [|kw l IH]; [reflexivity|].
      cbn [List.filter].
      rewrite (proj2 (includes_not_occurs _ _) (Hnone kw (or_introl eq_refl))).
      destruct l as [|k l']; [reflexivity|]. apply IH; [discriminate|].
      intros k0 Hk. apply Hnone. now right. }
    rewrite E. cbn [List.length].
    pose proof (ceil_half_spec (List.length (c_motiveKeywords caseData))).
    destruct (c_motiveKeywords caseData); [congruence|]. cbn [List.length] in *. lia.
Qed.

Lemma truthy_empty (s : string) : Js.truthy s = false <-> s = "".
Proof. destruct s; split; intros H; try reflexivity; discriminate H. Qed.

Lemma toLowerCase_empty (s : string) : Js.toLowerCase s = "" <-> s = "".
Proof. destruct s; split; intros H; try reflexivity; discriminate H. Qed.

Lemma find_suspect_none (suspects : list Suspect) (id : string) :
  Session.find_suspect suspects id = None <->
  forall s, In s suspects -> s_id s <> id.
Proof.
  unfold Session.find_suspect. split.
  - intros H s Hin Hid. apply (find_none _ _ H) in Hin.
    rewrite Hid, String.eqb_refl in Hin. discriminate Hin.
  - intros H. induction suspects as [|s l IH]; [reflexivity|]. cbn [find].
    destruct (String.eqb_spec (s_id s) id) as [E|_].
    + exfalso. exact (H s (or_introl eq_refl) E).
    + apply IH. intros s' Hin. apply H. now right.
Qed.

(** What one accusation does. With an empty suspect id or a motive that is
    empty after trimming the input is rejected; with no case open, or with
    a case none of whose suspects has the killer's id, the handler throws:
    in all three the whole page is left as it was, no xp and no note.
    Otherwise the accusation is resolved with the verdict of the open case
    on the suspect id and the lower-cased trimmed motive: the logged-in
    player gets 100 xp on success and 10 otherwise, one system note is
    filed, and the case stays open with the points, the evidence and the
    lab flags as they were. *)
Theorem handleAccusation_outcomes (now : Z) (suspectId motive : string) (w : World) :
  let r := handleAccusation now suspectId motive w in
  (suspectId = "" \/ Js.trim motive = "" -> r = (w, InputRejected)) /\
  (suspectId <> "" -> Js.trim motive <> "" ->
   match currentCase (w_state w) with
   | None => r = (w, Threw)
   | Some caseData =>
       ((forall s, In s (c_suspects caseData) -> s_id s <> c_killerId caseData) ->
        r = (w, Threw)) /\
       ((exists s, In s (c_suspects caseData) /\ s_id s = c_killerId caseData) ->
        let v := judge caseData suspectId (Js.toLowerCase (Js.trim motive)) in
        snd r = Resolved v /\
        core (w_state (fst r)) = core (w_state w) /\
        (u_xp <$> user (w_state (fst r)))
          = ((fun p => u_xp p + (if success v then 100 else 10)) <$> user (w_state w)) /\
        investigationNotes (w_state (fst r))
          = (investigationNotes (w_state w)
             ++ [ {| n_type := system_note;
                     n_text := if success v then TCaseSolved else TCaseFailed;
                     n_speaker := None |} ])%list)
   end).
Proof.
  cbn zeta. split.
  - intros H. apply handleAccusation_rejected.
    destruct H as [-> | H]; [now left | right].
    apply truthy_empty, toLowerCase_empty, H.
  - intros Hs Hm.
    assert (Ts : Js.truthy suspectId = true).
    { destruct (Js.truthy suspectId) eqn:E; [reflexivity|].
      apply (proj1 (truthy_empty _)) in E. contradiction. }
    assert (Tm : Js.truthy (Js.toLowerCase (Js.trim motive)) = true).
    { destruct (Js.truthy (Js.toLowerCase (Js.trim motive))) eqn:E; [reflexivity|].
      apply (proj1 (truthy_empty _)) in E. apply (proj1 (toLowerCase_empty _)) in E.
      contradiction. }
    pose proof (core_handleAccusation now suspectId motive w) as [C _].
    revert C. unfold handleAccusation. rewrite Ts, Tm. cbn [negb orb].
    destruct (currentCase (w_state w)) as [caseData|] eqn:Ec; [|reflexivity].
    intros C. split.
    + intros Hnone. apply find_suspect_none in Hnone. now rewrite Hnone.
    + intros (s & Hin & Hid).
      destruct (Session.find_suspect (c_suspects caseData) (c_killerId caseData))
        as [killer|] eqn:Ef;
        [|exfalso; exact (proj1 (find_suspect_none _ _) Ef s Hin Hid)].
      cbn [fst snd] in *. split; [reflexivity|]. split; [exact C|].
      unfold PlayerStats.addXP, PlayerStats.addXP_with, with_state.
      destruct (user (w_state w)) as [u|] eqn:Eu.
      * destruct (GameDatabase.updateUser _ _ _ _) as [x ls].
        cbn [w_state Session.addNote Session.set_investigationNotes Session.set_user user
             investigationNotes]. split; reflexivity.
      * cbn [w_state Session.addNote Session.set_investigationNotes user investigationNotes].
        rewrite Eu. split; reflexivity.
Qed.

End Verdicts.

(** ** Logging in and clearing the store *)

Section Logins.

Import GameDatabase Game.




End Logins.
